(** * Miller-Rabin primality test (src/Miller_Rabin_karp.cpp)

    A shallow embedding of the four functions of the program
    ([mulmod], [modexp], [check_composite], [isPrime]) over [Z], with the
    fixed-width arithmetic of [long long], [int] and [__int128] written
    out, followed by the properties of the specification. *)

From Stdlib Require Import ZArith List Lia Bool Znumtheory.
From Stdlib Require Import Zmod.
From Stdlib Require Import String.
From Stdlib Require Ascii DecimalString.
Import ListNotations.

Local Open Scope Z_scope.

(** ** Fixed-width signed integers *)

Module Int.

(** Two's complement reduction of an integer to [w] bits. *)
Definition wrap (w x : Z) : Z := (x + 2 ^ (w - 1)) mod 2 ^ w - 2 ^ (w - 1).

(** The values a signed [w]-bit integer can hold. *)
Definition in_range (w x : Z) : Prop := - 2 ^ (w - 1) <= x < 2 ^ (w - 1).

Definition min_signed (w : Z) : Z := - 2 ^ (w - 1).
Definition max_signed (w : Z) : Z := 2 ^ (w - 1) - 1.

End Int.

(** [int], [long long] and [__int128]. *)
Definition wrap32 : Z -> Z := Int.wrap 32.
Definition wrap64 : Z -> Z := Int.wrap 64.
Definition wrap128 : Z -> Z := Int.wrap 128.

Definition int32 : Z -> Prop := Int.in_range 32.
Definition int64 : Z -> Prop := Int.in_range 64.
Definition int128 : Z -> Prop := Int.in_range 128.

(** ** Outcomes

    The operator [%] with a zero right operand has no defined result; the
    loops of the program are run with a fuel, and a loop that does not
    leave within its fuel is reported apart. *)

Inductive outcome (A : Type) : Type :=
| Ret (x : A)
| DivByZero
| OutOfFuel.

Arguments Ret {A} x.
Arguments DivByZero {A}.
Arguments OutOfFuel {A}.

Definition bind {A B : Type} (m : outcome A) (k : A -> outcome B) : outcome B :=
  match m with
  | Ret x => k x
  | DivByZero => DivByZero
  | OutOfFuel => OutOfFuel
  end.

Notation "x <- m ;; k" := (bind m (fun x => k))
  (at level 61, m at next level, right associativity).

(** ** The program *)

(** [long long mulmod(long long a, long long b, long long mod)]:
    the product is taken in [__int128], [%] is the truncating remainder of
    C++, and the result is cast back to [long long].  The parameter [mod]
    of the source is written [m] here, [mod] being an operator of [Z]. *)
Definition mulmod (a b m : Z) : outcome Z :=
  let res := wrap128 (a * b) in
  if m =? 0 then DivByZero
  else Ret (wrap64 (wrap128 (Z.rem res m))).

(** The [while (b > 0)] loop of [modexp]; [fuel] bounds the number of
    evaluations of the loop condition. *)
Fixpoint modexp_loop (fuel : nat) (result a b m : Z) : outcome Z :=
  match fuel with
  | O => OutOfFuel
  | S fuel' =>
      if b >? 0 then
        result' <- (if negb (Z.land b 1 =? 0) then mulmod result a m
                    else Ret result) ;;
        a' <- mulmod a a m ;;
        modexp_loop fuel' result' a' (Z.shiftr b 1) m
      else Ret result
  end.

(** A [long long] has 63 value bits: the loop condition is evaluated at
    most 64 times. *)
Definition modexp_fuel : nat := 64.

(** [long long modexp(long long a, long long b, long long mod)]. *)
Definition modexp (a b m : Z) : outcome Z :=
  modexp_loop modexp_fuel 1 a b m.

(** The [for (int r = 1; r < s; r++)] loop of [check_composite], entered
    with the current [r] and [x]. *)
Fixpoint squaring_loop (fuel : nat) (r x n s : Z) : outcome bool :=
  match fuel with
  | O => OutOfFuel
  | S fuel' =>
      if r <? s then
        x' <- mulmod x x n ;;
        if x' =? wrap64 (n - 1) then Ret false
        else if x' =? 1 then Ret true
        else squaring_loop fuel' (wrap32 (r + 1)) x' n s
      else Ret true
  end.

(** [bool check_composite(long long a, long long d, long long n, int s)]:
    [true] means that base [a] proves [n] composite. *)
Definition check_composite (a d n s : Z) : outcome bool :=
  x <- modexp a d n ;;
  if (x =? 1) || (x =? wrap64 (n - 1)) then Ret false
  else squaring_loop (S (Z.to_nat s)) 1 x n s.

(** The [while ((d & 1) == 0)] loop of [isPrime]. *)
Fixpoint decompose (fuel : nat) (d s : Z) : outcome (Z * Z) :=
  match fuel with
  | O => OutOfFuel
  | S fuel' =>
      if Z.land d 1 =? 0 then decompose fuel' (Z.shiftr d 1) (wrap32 (s + 1))
      else Ret (d, s)
  end.

Definition decompose_fuel : nat := 64.

Definition test_bases : list Z := [2; 3; 5; 7; 11; 13; 17].

(** The [for (long long a : test_bases)] loop of [isPrime]. *)
Fixpoint bases_loop (bases : list Z) (d n s : Z) : outcome bool :=
  match bases with
  | [] => Ret true
  | a :: rest =>
      if a >=? n then bases_loop rest d n s
      else
        c <- check_composite a d n s ;;
        if c then Ret false else bases_loop rest d n s
  end.

(** [bool isPrime(long long n)]. *)
Definition isPrime (n : Z) : outcome bool :=
  if n <? 2 then Ret false
  else if Z.rem n 2 =? 0 then Ret (n =? 2)
  else
    ds <- decompose decompose_fuel (wrap64 (n - 1)) 0 ;;
    bases_loop test_bases (fst ds) n (snd ds).

(** What [cout << n] writes for a [long long]: its decimal digits, with a
    leading [-] below zero. *)
Definition decimal (n : Z) : string :=
  DecimalString.NilZero.string_of_int (Z.to_int n).

Definition newline : string := String (Ascii.ascii_of_nat 10) EmptyString.

(** [int main()], from the value that [cin >> n] left in [n]: the text
    written to [cout] and the exit status. *)
Definition main (n : Z) : outcome (string * Z) :=
  let prompt := "Enter a number: "%string in
  b <- isPrime n ;;
  let verdict :=
    (if b then " is PRIME" ++ newline
     else " is COMPOSITE" ++ newline)%string in
  Ret ((prompt ++ decimal n ++ verdict)%string, 0).

(** ** Vocabulary of the specification *)

(** A composite number is a product of two proper factors. *)
Definition composite (n : Z) : Prop :=
  exists p q : Z, 1 < p < n /\ 1 < q < n /\ n = p * q.

(** The sequence inspected by the witness evaluator: [a^d] squared [r]
    times, modulo [n]. *)
Definition squarings (a d n r : Z) : Z := (a ^ d) ^ (2 ^ r) mod n.

(** Base [a] does not prove [n] composite, in the words of the
    specification: [a^d mod n] is [1] or [n-1], or one of the first [s-1]
    squarings is [n-1] before any squaring is [1]. *)
Definition not_a_witness (a d n s : Z) : Prop :=
  squarings a d n 0 = 1 \/ squarings a d n 0 = n - 1 \/
  exists r, 1 <= r < s /\ squarings a d n r = n - 1 /\
            forall j, 1 <= j < r -> squarings a d n j <> 1.

(** Base [a] is a witness in the run of [isPrime n]: with the [d] and [s]
    that [isPrime] computes for [n], the witness evaluator answers
    [true]. *)
Definition reports_witness (n a : Z) : Prop :=
  exists d s : Z,
    decompose decompose_fuel (wrap64 (n - 1)) 0 = Ret (d, s) /\
    check_composite a d n s = Ret true.

(** [n] passes base [2] and is caught by a later base of the list. *)
Definition caught_after_base_2 (n : Z) : Prop :=
  ~ reports_witness n 2 /\
  exists a, In a test_bases /\ 2 < a < n /\ reports_witness n a.

(** The verdicts the specification lists for its reference inputs. *)
Definition reference_verdicts : Prop :=
  isPrime 17 = Ret true /\ isPrime 2 = Ret true /\
  isPrime 7919 = Ret true /\ isPrime 1000000007 = Ret true /\
  isPrime 1 = Ret false /\
  Forall (fun c => isPrime c = Ret false) [341; 561; 645; 1105; 2465; 41041].

(** [n] is a strong probable prime to base [a], for [n - 1 = d * 2^s]:
    [a^d] is [1] modulo [n], or [a^(d * 2^r)] is [-1] modulo [n] for some
    [r] below [s]. *)
Definition strong_probable_prime (a d n s : Z) : Prop :=
  a ^ d mod n = 1 \/ exists r, 0 <= r < s /\ a ^ (d * 2 ^ r) mod n = n - 1.

(** Primality by trial division up to the square root, a reference to
    decide [Z.prime] by computation. *)
Definition no_small_divisor (n : Z) : bool :=
  forallb (fun p => negb (n mod p =? 0))
    (map Z.of_nat (seq 2 (Z.to_nat (Z.sqrt n) - 1))).

Definition prime_by_trial (n : Z) : bool := (2 <=? n) && no_small_divisor n.

(** Every number below [bound] that [isPrime] accepts passes the trial
    division. *)
Definition accepted_are_prime_below (bound : nat) : bool :=
  forallb (fun k => match isPrime (Z.of_nat k) with
                    | Ret true => prime_by_trial (Z.of_nat k)
                    | Ret false => true
                    | _ => false
                    end) (seq 0 bound).

(** ** Fixed-width facts *)

Lemma wrap_id (w x : Z) : 0 < w -> Int.in_range w x -> Int.wrap w x = x.
Proof.
  unfold Int.in_range, Int.wrap. intros Hw Hx.
  assert (E : 2 ^ w = 2 * 2 ^ (w - 1)).
  { replace w with (Z.succ (w - 1)) at 1 by lia. apply Z.pow_succ_r. lia. }
  rewrite Z.mod_small; lia.
Qed.

Lemma wrap64_id (x : Z) : int64 x -> wrap64 x = x.
Proof. apply wrap_id. lia. Qed.

Lemma wrap128_id (x : Z) : int128 x -> wrap128 x = x.
Proof. apply wrap_id. lia. Qed.

Lemma wrap32_id (x : Z) : int32 x -> wrap32 x = x.
Proof. apply wrap_id. lia. Qed.

Lemma int64_bounds (x : Z) :
  int64 x <-> - 9223372036854775808 <= x < 9223372036854775808.
Proof. unfold int64, Int.in_range. simpl. reflexivity. Qed.

Lemma int32_bounds (x : Z) : int32 x <-> - 2147483648 <= x < 2147483648.
Proof. unfold int32, Int.in_range. simpl. reflexivity. Qed.

Lemma int128_bounds (x : Z) :
  int128 x <-> - 2 ^ 127 <= x < 2 ^ 127.
Proof. unfold int128, Int.in_range. simpl. reflexivity. Qed.

(** The product of two [long long] values fits [__int128]. *)
Lemma product_int128 (a b : Z) : int64 a -> int64 b -> int128 (a * b).
Proof.
  rewrite !int64_bounds, int128_bounds. intros Ha Hb.
  change (2 ^ 127) with (9223372036854775808 * 9223372036854775808 * 2).
  nia.
Qed.

Ltac int_bounds :=
  repeat match goal with
    | H : int64 ?x |- _ => apply (proj1 (int64_bounds x)) in H
    | H : int32 ?x |- _ => apply (proj1 (int32_bounds x)) in H
    | |- int64 ?x => apply (proj2 (int64_bounds x))
    | |- int32 ?x => apply (proj2 (int32_bounds x))
    end.

(** ** The multiplication kernel *)

(** On non-negative operands and a positive modulus, neither the product
    nor the cast wraps, and the truncating remainder is the modulo. *)
Lemma mulmod_nonneg (a b m : Z) :
  0 <= a -> int64 a -> 0 <= b -> int64 b -> 0 < m -> int64 m ->
  mulmod a b m = Ret ((a * b) mod m).
Proof.
  intros Ha Ha' Hb Hb' Hm Hm'. unfold mulmod.
  destruct (Z.eqb_spec m 0) as [?|_]; [lia|].
  rewrite (wrap128_id (a * b)) by now apply product_int128.
  rewrite Z.rem_mod_nonneg by (try apply Z.mul_nonneg_nonneg; lia).
  pose proof (Z.mod_pos_bound (a * b) m Hm) as Hr.
  assert (I64 : int64 ((a * b) mod m)) by (int_bounds; lia).
  assert (I128 : int128 ((a * b) mod m)).
  { apply int128_bounds. int_bounds.
    assert (9223372036854775808 <= 2 ^ 127) by (vm_compute; discriminate).
    lia. }
  now rewrite (wrap128_id _ I128), (wrap64_id _ I64).
Qed.

(** C6: for [0 <= a, b < m] and [1 <= m <= 2^63 - 1], [mulmod a b m] is the
    exact [(a * b) mod m], it lies in [[0, m)], and neither the [__int128]
    product nor the cast of the remainder to [long long] overflows. *)
Theorem mulmod_correct (a b m : Z) :
  0 <= a < m -> 0 <= b < m -> 1 <= m <= Int.max_signed 64 ->
  mulmod a b m = Ret ((a * b) mod m) /\
  0 <= (a * b) mod m < m /\
  int128 (a * b) /\ wrap128 (a * b) = a * b /\
  int64 (Z.rem (a * b) m) /\
  wrap64 (wrap128 (Z.rem (a * b) m)) = Z.rem (a * b) m.
Proof.
  intros Ha Hb Hm.
  assert (Hmax : Int.max_signed 64 = 9223372036854775807) by reflexivity.
  rewrite Hmax in Hm.
  assert (Ia : int64 a) by (int_bounds; lia).
  assert (Ib : int64 b) by (int_bounds; lia).
  assert (Im : int64 m) by (int_bounds; lia).
  assert (Hr : 0 <= (a * b) mod m < m) by (apply Z.mod_pos_bound; lia).
  assert (Hp : int128 (a * b)) by now apply product_int128.
  assert (Hrem : Z.rem (a * b) m = (a * b) mod m)
    by (apply Z.rem_mod_nonneg; try apply Z.mul_nonneg_nonneg; lia).
  assert (Ir : int64 (Z.rem (a * b) m)) by (rewrite Hrem; int_bounds; lia).
  assert (Hmul : mulmod a b m = Ret ((a * b) mod m))
    by (apply mulmod_nonneg; lia || assumption).
  refine (conj Hmul (conj Hr (conj Hp (conj _ (conj Ir _))))).
  - now apply wrap128_id.
  - unfold mulmod in Hmul. destruct (m =? 0); [discriminate|].
    rewrite (wrap128_id (a * b)) in Hmul by assumption.
    injection Hmul as Hmul. now rewrite Hmul.
Qed.

Lemma mulmod_correct_witness :
  (0 <= 9223372036854775805 < 9223372036854775807 /\
   0 <= 9223372036854775806 < 9223372036854775807 /\
   1 <= 9223372036854775807 <= Int.max_signed 64) /\
  mulmod 9223372036854775805 9223372036854775806 9223372036854775807 = Ret 2.
Proof.
  split.
  - vm_compute. intuition discriminate.
  - apply (mulmod_correct 9223372036854775805 9223372036854775806
             9223372036854775807); vm_compute; intuition discriminate.
Defined.

(** ** Bit operations of the loops *)

Lemma land_1 (b : Z) : Z.land b 1 = b mod 2.
Proof. change 1 with (Z.ones 1). rewrite Z.land_ones by lia. reflexivity. Qed.

Lemma shiftr_1 (b : Z) : Z.shiftr b 1 = b / 2.
Proof. rewrite Z.shiftr_div_pow2 by lia. reflexivity. Qed.

Lemma pow_low_bit (a b : Z) :
  0 <= b -> a ^ b = a ^ (b mod 2) * (a * a) ^ (b / 2).
Proof.
  intros Hb.
  pose proof (Z.mod_pos_bound b 2 ltac:(lia)) as Hr.
  assert (Hq : 0 <= b / 2) by (apply Z.div_pos; lia).
  rewrite (Z.div_mod b 2) at 1 by lia.
  rewrite Z.pow_add_r, Z.pow_mul_r, Z.pow_2_r by lia.
  apply Z.mul_comm.
Qed.

Lemma mul_pow_mod (r x q m : Z) :
  m <> 0 -> (r * (x mod m) ^ q) mod m = (r * x ^ q) mod m.
Proof.
  intros Hm.
  rewrite <- (Z.mul_mod_idemp_r r ((x mod m) ^ q)) by assumption.
  rewrite Z.mod_pow_l. now rewrite Z.mul_mod_idemp_r.
Qed.

(** ** Modular exponentiation *)

Lemma modexp_loop_S (fuel : nat) (result a b m : Z) :
  modexp_loop (S fuel) result a b m =
    if b >? 0 then
      result' <- (if negb (Z.land b 1 =? 0) then mulmod result a m
                  else Ret result) ;;
      a' <- mulmod a a m ;;
      modexp_loop fuel result' a' (Z.shiftr b 1) m
    else Ret result.
Proof. reflexivity. Qed.

Section ModexpLoop.

Variable m : Z.
Hypothesis m_pos : 0 < m.
Hypothesis m_int64 : int64 m.

(** One run of the loop from any state with non-negative [result] and
    [a]: [k] iterations are enough for an exponent below [2^k]. *)
Lemma modexp_loop_spec (k : nat) :
  forall result a b : Z,
    0 <= result -> int64 result -> 0 <= a -> int64 a ->
    0 <= b < 2 ^ Z.of_nat k ->
    modexp_loop (S k) result a b m =
      Ret (if b =? 0 then result else (result * a ^ b) mod m).
Proof.
  induction k as [|k IH]; intros result a b Hr Ir Ha Ia Hb.
  - assert (b = 0) by (change (2 ^ Z.of_nat 0) with 1 in Hb; lia).
    subst b. reflexivity.
  - rewrite modexp_loop_S.
    destruct (Z.eqb_spec b 0) as [->|Hb0]; [reflexivity|].
    destruct (Z.gtb_spec b 0) as [Hpos|?]; [|lia].
    rewrite land_1, shiftr_1.
    pose proof (Z.mod_pos_bound b 2 ltac:(lia)) as Hbit.
    assert (Hq : 0 <= b / 2 < 2 ^ Z.of_nat k).
    { split; [apply Z.div_pos; lia|].
      apply Z.div_lt_upper_bound; [lia|].
      rewrite Nat2Z.inj_succ, Z.pow_succ_r in Hb by lia. lia. }
    assert (Hsq : mulmod a a m = Ret ((a * a) mod m))
      by (apply mulmod_nonneg; assumption).
    pose proof (Z.mod_pos_bound (a * a) m m_pos) as Hsqb.
    assert (Isq : int64 ((a * a) mod m)) by (int_bounds; lia).
    rewrite (pow_low_bit a b) by lia.
    destruct (Z.eqb_spec (b mod 2) 0) as [E|E]; cbn [negb bind].
    + rewrite Hsq. cbn [bind]. rewrite IH by (lia || assumption).
      rewrite E, Z.pow_0_r, Z.mul_1_l.
      destruct (Z.eqb_spec (b / 2) 0) as [Eq|Eq].
      * exfalso. pose proof (Z.div_mod b 2 ltac:(lia)). lia.
      * apply f_equal, mul_pow_mod. lia.
    + assert (E1 : b mod 2 = 1) by lia.
      rewrite mulmod_nonneg by assumption. cbn [bind].
      rewrite Hsq. cbn [bind].
      pose proof (Z.mod_pos_bound (result * a) m m_pos) as Hrb.
      rewrite IH by (lia || assumption || (int_bounds; lia)).
      rewrite E1, Z.pow_1_r.
      destruct (Z.eqb_spec (b / 2) 0) as [Eq|Eq].
      * now rewrite Eq, Z.pow_0_r, Z.mul_1_r.
      * rewrite mul_pow_mod, Z.mul_mod_idemp_l, Z.mul_assoc by lia.
        reflexivity.
Qed.

End ModexpLoop.

(** [modexp] on its contract: [a >= 0], [e >= 0], [m >= 1].  The result is
    [a^e mod m] for every exponent but [0], where it is the initial [1]. *)
Lemma modexp_spec (a e m : Z) :
  0 <= a -> int64 a -> 0 <= e -> int64 e -> 0 < m -> int64 m ->
  modexp a e m = Ret (if e =? 0 then 1 else a ^ e mod m).
Proof.
  intros Ha Ia He Ie Hm Im. unfold modexp, modexp_fuel.
  rewrite (modexp_loop_spec m Hm Im 63 1 a e); try assumption; try lia.
  - now rewrite Z.mul_1_l.
  - int_bounds. lia.
  - int_bounds. change (2 ^ Z.of_nat 63) with 9223372036854775808. lia.
Qed.

(** Away from the corner [e = 0], [m = 1], [modexp] is [a^e mod m]. *)
Lemma modexp_pow (a e m : Z) :
  0 <= a -> int64 a -> 0 <= e -> int64 e -> 0 < m -> int64 m ->
  0 < e \/ 1 < m ->
  modexp a e m = Ret (a ^ e mod m) /\ 0 <= a ^ e mod m < m.
Proof.
  intros Ha Ia He Ie Hm Im Hcorner.
  split; [|apply Z.mod_pos_bound; lia].
  rewrite modexp_spec by assumption.
  destruct (Z.eqb_spec e 0) as [->|_]; [|reflexivity].
  rewrite Z.pow_0_r, Z.mod_1_l by lia. reflexivity.
Qed.

(** The loop never runs out of its fuel: [k] iterations and one more test
    of the condition are enough when [b < 2^k], whatever the other
    arguments are. *)
Lemma modexp_loop_fuel (m : Z) (k : nat) :
  forall result a b : Z,
    b < 2 ^ Z.of_nat k -> modexp_loop (S k) result a b m <> OutOfFuel.
Proof.
  induction k as [|k IH]; intros result a b Hb; rewrite modexp_loop_S.
  - change (2 ^ Z.of_nat 0) with 1 in Hb.
    destruct (Z.gtb_spec b 0); [lia|discriminate].
  - destruct (Z.gtb_spec b 0) as [Hpos|_]; [|discriminate].
    assert (Hq : b / 2 < 2 ^ Z.of_nat k).
    { apply Z.div_lt_upper_bound; [lia|].
      rewrite Nat2Z.inj_succ, Z.pow_succ_r in Hb by lia. lia. }
    rewrite shiftr_1. unfold mulmod.
    destruct (m =? 0); [destruct (negb _); discriminate|].
    destruct (negb _); cbn [bind]; now apply IH.
Qed.

(** With a non-zero modulus the loop returns a value. *)
Lemma modexp_loop_returns (m : Z) (k : nat) :
  m <> 0 ->
  forall result a b : Z,
    b < 2 ^ Z.of_nat k -> exists r, modexp_loop (S k) result a b m = Ret r.
Proof.
  intros Hm.
  induction k as [|k IH]; intros result a b Hb; rewrite modexp_loop_S.
  - change (2 ^ Z.of_nat 0) with 1 in Hb.
    destruct (Z.gtb_spec b 0); [lia|]. now exists result.
  - destruct (Z.gtb_spec b 0) as [Hpos|_]; [|now exists result].
    assert (Hq : b / 2 < 2 ^ Z.of_nat k).
    { apply Z.div_lt_upper_bound; [lia|].
      rewrite Nat2Z.inj_succ, Z.pow_succ_r in Hb by lia. lia. }
    rewrite shiftr_1. unfold mulmod.
    destruct (Z.eqb_spec m 0); [contradiction|].
    destruct (negb _); cbn [bind]; now apply IH.
Qed.

(** A maximal exponent needs all of the 63 iterations: one evaluation of
    the condition less and the loop is still running. *)
Lemma modexp_loop_needs_63 :
  modexp_loop 63 1 2 (Int.max_signed 64) 5 = OutOfFuel /\
  modexp_loop 64 1 2 (Int.max_signed 64) 5 = Ret 3.
Proof. split; vm_compute; reflexivity. Qed.

(** C7 at [e = 0], [m = 1]: the loop body never runs, so [modexp] returns
    its initial [result = 1], which is neither [a^0 mod 1 = 0] nor a value
    of [[0, 1)]. *)
Theorem modexp_exponent_zero_modulus_one (a : Z) :
  modexp a 0 1 = Ret 1 /\ a ^ 0 mod 1 = 0.
Proof.
  split; [reflexivity|].
  rewrite Z.pow_0_r. reflexivity.
Qed.

(** C8: the identity laws of [modexp]: for [a >= 0] and a modulus [m > 1],
    [modexp a 0 m] is [1] and [modexp a 1 m] is [a mod m]. *)
Theorem modexp_identity_laws (a m : Z) :
  0 <= a -> int64 a -> 1 < m -> int64 m ->
  modexp a 0 m = Ret 1 /\ modexp a 1 m = Ret (a mod m).
Proof.
  intros Ha Ia Hm Im. split; [reflexivity|].
  rewrite modexp_spec; try assumption; try lia.
  - now rewrite Z.pow_1_r.
  - int_bounds. lia.
Qed.

Lemma modexp_identity_laws_witness :
  (0 <= 1000000010 /\ int64 1000000010 /\ 1 < 1000000007 /\
   int64 1000000007) /\
  modexp 1000000010 0 1000000007 = Ret 1 /\
  modexp 1000000010 1 1000000007 = Ret 3.
Proof.
  assert (I1 : int64 1000000010) by (int_bounds; lia).
  assert (I2 : int64 1000000007) by (int_bounds; lia).
  split.
  - repeat split; try assumption; lia.
  - apply (modexp_identity_laws 1000000010 1000000007); try assumption; lia.
Defined.

(** C10: [modexp] terminates for every 64-bit exponent [b].  Its loop
    never exhausts the fuel of 63 iterations and a last, failing test of
    [b > 0]; with a non-zero modulus it returns a value; and for [b <= 0]
    a single test of the condition is enough: no iteration runs and the
    result is the initial [1], whatever the modulus. *)
Theorem modexp_terminates (a b m : Z) :
  int64 b ->
  (forall result a', modexp_loop (S 63) result a' b m <> OutOfFuel) /\
  modexp a b m <> OutOfFuel /\
  (m <> 0 -> exists r, modexp a b m = Ret r) /\
  (b <= 0 -> modexp_loop 1 1 a b m = Ret 1 /\ modexp a b m = Ret 1).
Proof.
  intros Ib.
  assert (Hb : b < 2 ^ Z.of_nat 63).
  { int_bounds. change (2 ^ Z.of_nat 63) with 9223372036854775808. lia. }
  split; [|split; [|split]].
  - intros result a'. now apply modexp_loop_fuel.
  - now apply modexp_loop_fuel.
  - intros Hm. now apply modexp_loop_returns.
  - intros Hle. unfold modexp, modexp_fuel. rewrite !modexp_loop_S.
    destruct (Z.gtb_spec b 0); [lia|]. now split.
Qed.

Lemma modexp_terminates_witness :
  int64 (Int.min_signed 64) /\
  modexp 7 (Int.min_signed 64) 0 = Ret 1.
Proof.
  assert (I : int64 (Int.min_signed 64))
    by (int_bounds; vm_compute; intuition discriminate).
  split; [exact I|].
  apply (modexp_terminates 7 (Int.min_signed 64) 0 I).
  vm_compute. discriminate.
Defined.

(** ** Trivial cases of the decision *)

Lemma isPrime_below_2 (n : Z) : n < 2 -> isPrime n = Ret false.
Proof.
  intros Hn. unfold isPrime. destruct (Z.ltb_spec n 2); [reflexivity|lia].
Qed.

Lemma isPrime_even (n : Z) :
  2 < n -> Z.even n = true -> isPrime n = Ret false.
Proof.
  intros Hn He. unfold isPrime.
  destruct (Z.ltb_spec n 2); [lia|].
  assert (Hr : Z.rem n 2 = 0).
  { rewrite Z.rem_mod_nonneg by lia.
    rewrite Zeven_mod in He. now apply Z.eqb_eq. }
  rewrite Hr. cbn [Z.eqb]. destruct (Z.eqb_spec n 2); [lia|reflexivity].
Qed.

(** C5: [isPrime] is false below [2] (negative numbers included), true at
    [2], and false at every even number above [2]. *)
Theorem isPrime_trivial_cases :
  (forall n, n < 2 -> isPrime n = Ret false) /\
  isPrime 2 = Ret true /\
  (forall n, 2 < n -> Z.even n = true -> isPrime n = Ret false).
Proof.
  split; [exact isPrime_below_2|]. split; [reflexivity|exact isPrime_even].
Qed.

Lemma isPrime_trivial_cases_witness :
  isPrime (-7) = Ret false /\ isPrime (Int.min_signed 64) = Ret false /\
  isPrime 2 = Ret true /\ isPrime 9223372036854775806 = Ret false.
Proof.
  destruct isPrime_trivial_cases as (Hlow & Htwo & Heven).
  split; [apply Hlow; lia|].
  split; [apply Hlow; vm_compute; reflexivity|].
  split; [exact Htwo|].
  apply Heven; [lia|reflexivity].
Defined.

(** ** The witness evaluator *)

Lemma squaring_loop_S (fuel : nat) (r x n s : Z) :
  squaring_loop (S fuel) r x n s =
    if r <? s then
      x' <- mulmod x x n ;;
      if x' =? wrap64 (n - 1) then Ret false
      else if x' =? 1 then Ret true
      else squaring_loop fuel (wrap32 (r + 1)) x' n s
    else Ret true.
Proof. reflexivity. Qed.

Lemma squarings_0 (a d n : Z) : squarings a d n 0 = a ^ d mod n.
Proof. unfold squarings. now rewrite Z.pow_0_r, Z.pow_1_r. Qed.

Lemma squarings_range (a d n r : Z) : 0 < n -> 0 <= squarings a d n r < n.
Proof. intros Hn. now apply Z.mod_pos_bound. Qed.

(** Each element of the sequence is the square of the one before. *)
Lemma squarings_succ (a d n r : Z) :
  0 <= r -> n <> 0 ->
  squarings a d n (r + 1) = (squarings a d n r * squarings a d n r) mod n.
Proof.
  intros Hr Hn. unfold squarings.
  rewrite <- Z.mul_mod by assumption.
  rewrite Z.pow_add_r, Z.pow_1_r, Z.pow_mul_r, Z.pow_2_r by lia.
  reflexivity.
Qed.

(** Once the sequence is [1] it stays [1]. *)
Lemma squarings_one_stays (a d n : Z) (j k : Z) :
  1 < n -> 0 <= j <= k -> squarings a d n j = 1 -> squarings a d n k = 1.
Proof.
  intros Hn Hjk Hj.
  replace k with (j + (k - j)) by lia.
  assert (Hk : 0 <= k - j) by lia. revert Hk.
  generalize (k - j). apply natlike_ind.
  - now rewrite Z.add_0_r.
  - intros i Hi IH. replace (j + Z.succ i) with (j + i + 1) by lia.
    rewrite squarings_succ, IH by lia. apply Z.mod_1_l. lia.
Qed.

Section SquaringLoop.

Variables a d n s : Z.
Hypothesis n_ge_3 : 3 <= n.
Hypothesis n_int64 : int64 n.
Hypothesis s_int32 : int32 s.

Lemma wrap64_pred_n : wrap64 (n - 1) = n - 1.
Proof using n_ge_3 n_int64.
  pose proof (proj1 (int64_bounds n) n_int64).
  apply wrap64_id, int64_bounds. lia.
Qed.

(** One squaring of the loop moves along the sequence. *)
Lemma mulmod_squarings (r : Z) :
  1 <= r ->
  mulmod (squarings a d n (r - 1)) (squarings a d n (r - 1)) n =
    Ret (squarings a d n r).
Proof using n_ge_3 n_int64.
  intros Hr.
  pose proof (squarings_range a d n (r - 1) ltac:(lia)) as Hx.
  pose proof (proj1 (int64_bounds n) n_int64).
  assert (Ix : int64 (squarings a d n (r - 1))) by (apply int64_bounds; lia).
  rewrite mulmod_nonneg by (lia || assumption).
  replace r with (r - 1 + 1) at 3 by lia.
  now rewrite squarings_succ by lia.
Qed.

(** The loop entered at [r] with [x] the element [r - 1] of the sequence
    returns, and it returns [false] exactly when an element from [r] on,
    below [s], is [n - 1] with no [1] before it. *)
Lemma squaring_loop_spec (fuel : nat) :
  forall r : Z,
    1 <= r -> (0 < fuel)%nat -> s - r < Z.of_nat fuel ->
    exists b : bool,
      squaring_loop fuel r (squarings a d n (r - 1)) n s = Ret b /\
      (b = false <->
       exists k, r <= k < s /\ squarings a d n k = n - 1 /\
                 forall j, r <= j < k -> squarings a d n j <> 1).
Proof using n_ge_3 n_int64 s_int32.
  induction fuel as [|fuel IH]; intros r Hr Hpos Hfuel; [lia|].
  rewrite squaring_loop_S.
  destruct (Z.ltb_spec r s) as [Hlt|Hge].
  - rewrite mulmod_squarings by assumption. cbn [bind].
    rewrite wrap64_pred_n.
    destruct (Z.eqb_spec (squarings a d n r) (n - 1)) as [Em|Em].
    { exists false. split; [reflexivity|]. split; [intros _|reflexivity].
      exists r. split; [lia|]. split; [assumption|]. intros j Hj. lia. }
    destruct (Z.eqb_spec (squarings a d n r) 1) as [E1|E1].
    { exists true. split; [reflexivity|]. split; [discriminate|].
      intros (k & Hk & Hkm & Hbefore). exfalso.
      destruct (Z.eq_dec k r) as [->|Hne]; [contradiction|].
      apply (Hbefore r); [lia|assumption]. }
    assert (Hw : wrap32 (r + 1) = r + 1)
      by (apply wrap32_id; int_bounds; lia).
    rewrite Hw.
    destruct (IH (r + 1)) as (b & Hrun & Hb); [lia|lia|lia|].
    replace (r + 1 - 1) with r in Hrun by lia.
    exists b. split; [assumption|]. rewrite Hb. split.
    + intros (k & Hk & Hkm & Hbefore). exists k.
      split; [lia|]. split; [assumption|]. intros j Hj.
      destruct (Z.eq_dec j r) as [->|Hne]; [assumption|].
      apply Hbefore. lia.
    + intros (k & Hk & Hkm & Hbefore). exists k.
      assert (k <> r) by (intros ->; contradiction).
      split; [lia|]. split; [assumption|]. intros j Hj.
      apply Hbefore. lia.
  - exists true. split; [reflexivity|]. split; [discriminate|].
    intros (k & Hk & _). lia.
Qed.

(** The loop leaves at the first [1]: when element [k] is the first [1]
    from [r] on and no [n - 1] comes before it, [k - r + 1] iterations
    are run and the answer is [true]. *)
Lemma squaring_loop_stops_at_one (fuel : nat) :
  forall r k : Z,
    1 <= r -> r <= k < s -> squarings a d n k = 1 ->
    (forall j, r <= j < k ->
               squarings a d n j <> 1 /\ squarings a d n j <> n - 1) ->
    Z.of_nat fuel = k - r + 1 ->
    squaring_loop fuel r (squarings a d n (r - 1)) n s = Ret true.
Proof using n_ge_3 n_int64 s_int32.
  induction fuel as [|fuel IH]; intros r k Hr Hk Hone Hbefore Hfuel; [lia|].
  rewrite squaring_loop_S.
  destruct (Z.ltb_spec r s) as [Hlt|Hge]; [|lia].
  rewrite mulmod_squarings by assumption. cbn [bind].
  rewrite wrap64_pred_n.
  destruct (Z.eq_dec k r) as [->|Hne].
  - rewrite Hone.
    destruct (Z.eqb_spec 1 (n - 1)); [lia|]. reflexivity.
  - destruct (Hbefore r ltac:(lia)) as [H1 Hm].
    destruct (Z.eqb_spec (squarings a d n r) (n - 1)); [contradiction|].
    destruct (Z.eqb_spec (squarings a d n r) 1); [contradiction|].
    rewrite wrap32_id by (int_bounds; lia).
    specialize (IH (r + 1) k).
    replace (r + 1 - 1) with r in IH by lia.
    apply IH; try lia; try assumption.
    intros j Hj. apply Hbefore. lia.
Qed.

End SquaringLoop.

(** [check_composite] returns on its contract, and its answer is [false]
    exactly for the bases the specification calls "not a witness". *)
Lemma check_composite_spec (a d n s : Z) :
  3 <= n -> int64 n -> 0 <= a -> int64 a -> 1 <= d -> int64 d -> int32 s ->
  exists b : bool,
    check_composite a d n s = Ret b /\ (b = false <-> not_a_witness a d n s).
Proof.
  intros Hn In Ha Ia Hd Id Is. unfold check_composite, not_a_witness.
  destruct (modexp_pow a d n) as [Hx _]; try assumption; try lia.
  rewrite Hx, <- squarings_0. cbn [bind].
  rewrite wrap64_pred_n by assumption.
  destruct (Z.eqb_spec (squarings a d n 0) 1) as [E1|E1].
  { exists false. cbn [orb]. tauto. }
  destruct (Z.eqb_spec (squarings a d n 0) (n - 1)) as [Em|Em].
  { exists false. cbn [orb]. tauto. }
  cbn [orb].
  destruct (squaring_loop_spec a d n s Hn In Is (S (Z.to_nat s)) 1)
    as (b & Hrun & Hb); [lia|lia|lia|].
  change (1 - 1) with 0 in Hrun.
  exists b. split; [assumption|]. rewrite Hb. tauto.
Qed.

(** C3: on the contract of the witness evaluator, [check_composite]
    returns; it returns [false] if and only if [a^d mod n] is [1] or
    [n - 1], or one of the first [s - 1] squarings is [n - 1] before any
    squaring is [1]; it returns [true] at the first squaring that is [1]
    when no [n - 1] came before, after exactly that many squarings; and it
    returns [true] when the squarings end without an [n - 1]. *)
Theorem check_composite_characterisation (a d n s : Z) :
  Z.odd n = true -> 3 <= n -> int64 n -> 2 <= a < n ->
  Z.odd d = true -> 0 <= d -> int64 d -> 1 <= s -> int32 s ->
  (exists b, check_composite a d n s = Ret b) /\
  (check_composite a d n s = Ret false <-> not_a_witness a d n s) /\
  (forall k,
      1 <= k < s -> squarings a d n k = 1 ->
      (forall j, 0 <= j < k ->
                 squarings a d n j <> 1 /\ squarings a d n j <> n - 1) ->
      check_composite a d n s = Ret true /\
      squaring_loop (Z.to_nat k) 1 (squarings a d n 0) n s = Ret true) /\
  (squarings a d n 0 <> 1 ->
   (forall j, 0 <= j < s -> squarings a d n j <> n - 1) ->
   check_composite a d n s = Ret true).
Proof.
  intros On Hn In Ha Od Hd Id Hs Is.
  assert (Hd1 : 1 <= d).
  { destruct (Z.eq_dec d 0) as [->|]; [discriminate|lia]. }
  assert (Ia : int64 a) by (int_bounds; lia).
  destruct (check_composite_spec a d n s) as (b & Hrun & Hb);
    try assumption; try lia.
  assert (Htrue : ~ not_a_witness a d n s ->
                  check_composite a d n s = Ret true).
  { intros Hnot. rewrite Hrun. destruct b; [reflexivity|].
    exfalso. apply Hnot, Hb. reflexivity. }
  split; [now exists b|]. split; [|split].
  - rewrite Hrun, <- Hb. split; [now intros [= ->]|now intros ->].
  - intros k Hk Hone Hbefore. split.
    + apply Htrue. intros [E|[E|(r & Hr & Hm & Hno1)]].
      * now apply (proj1 (Hbefore 0 ltac:(lia))).
      * now apply (proj2 (Hbefore 0 ltac:(lia))).
      * destruct (Z.lt_trichotomy r k) as [Hlt|[->|Hgt]].
        -- now apply (proj2 (Hbefore r ltac:(lia))).
        -- lia.
        -- now apply (Hno1 k ltac:(lia)).
    + apply (squaring_loop_stops_at_one a d n s Hn In Is (Z.to_nat k) 1 k);
        try assumption; try lia.
      intros j Hj. apply Hbefore. lia.
  - intros Hx0 Hnever. apply Htrue.
    intros [E|[E|(r & Hr & Hm & _)]].
    + contradiction.
    + now apply (Hnever 0 ltac:(lia)).
    + now apply (Hnever r ltac:(lia)).
Qed.

Lemma check_composite_characterisation_witness :
  (Z.odd 341 = true /\ 3 <= 341 /\ int64 341 /\ 2 <= 2 < 341 /\
   Z.odd 85 = true /\ 0 <= 85 /\ int64 85 /\ 1 <= 2 /\ int32 2) /\
  (check_composite 2 85 341 2 = Ret false <-> not_a_witness 2 85 341 2).
Proof.
  assert (I1 : int64 341) by (int_bounds; lia).
  assert (I2 : int64 85) by (int_bounds; lia).
  assert (I3 : int32 2) by (int_bounds; lia).
  split.
  - repeat split; try assumption; try reflexivity; lia.
  - apply (check_composite_characterisation 2 85 341 2);
      try assumption; try reflexivity; lia.
Defined.

(** ** Primes pass every base *)

(** Modulo a prime, [1] has no square roots other than [1] and [-1]. *)
Lemma sqrt_one_prime (n x : Z) :
  Z.prime n -> 0 <= x < n -> (x * x) mod n = 1 -> x = 1 \/ x = n - 1.
Proof.
  intros Hp Hx Hsq.
  pose proof (Z.prime_ge_2 n Hp) as Hn.
  assert (Hdiv : (n | (x - 1) * (x + 1))).
  { exists (x * x / n).
    pose proof (Z.div_mod (x * x) n ltac:(lia)) as E. rewrite Hsq in E.
    lia. }
  apply Z.divide_prime_mul in Hdiv; [|assumption].
  destruct Hdiv as [[c Hc]|[c Hc]].
  - left. assert (c = 0) by nia. lia.
  - right. assert (c = 1) by nia. lia.
Qed.

(** Going down from a [1], the sequence modulo a prime is [1] all the way
    or meets [n - 1]. *)
Lemma squarings_descent (a d n k : Z) :
  Z.prime n -> 0 <= k -> squarings a d n k = 1 ->
  squarings a d n 0 = 1 \/
  exists j, 0 <= j < k /\ squarings a d n j = n - 1.
Proof.
  intros Hp Hk. pose proof (Z.prime_ge_2 n Hp) as Hn.
  revert k Hk. apply (natlike_ind (fun k => _ -> _)).
  - now left.
  - intros k Hk IH Hone.
    replace (Z.succ k) with (k + 1) in Hone by lia.
    rewrite squarings_succ in Hone by lia.
    apply sqrt_one_prime in Hone;
      [|assumption|apply squarings_range; lia].
    destruct Hone as [E1|Em].
    + destruct (IH E1) as [?|(j & Hj & Hm)]; [now left|].
      right. exists j. split; [lia|assumption].
    + right. exists k. split; [lia|assumption].
Qed.

Section PrimeModulus.

Variables a d n s : Z.
Hypothesis n_prime : Z.prime n.
Hypothesis n_ge_3 : 3 <= n.
Hypothesis a_range : 1 <= a < n.
Hypothesis d_nonneg : 0 <= d.
Hypothesis s_nonneg : 0 <= s.
Hypothesis decomposition : n - 1 = d * 2 ^ s.

(** Fermat's little theorem puts a [1] at the end of the sequence. *)
Lemma squarings_last : squarings a d n s = 1.
Proof using n_prime a_range d_nonneg s_nonneg decomposition.
  unfold squarings.
  rewrite <- Z.pow_mul_r, <- decomposition by (try apply Z.pow_nonneg; lia).
  apply Z.fermat_nz; [assumption|].
  rewrite Z.mod_small; lia.
Qed.

(** No base proves a prime composite. *)
Lemma prime_not_a_witness : not_a_witness a d n s.
Proof using n_prime n_ge_3 a_range d_nonneg s_nonneg decomposition.
  destruct (squarings_descent a d n s n_prime s_nonneg squarings_last)
    as [E|(j & Hj & Hm)]; [now left|].
  right. destruct (Z.eq_dec j 0) as [->|Hj0]; [now left|].
  right. exists j. split; [lia|]. split; [assumption|].
  intros i Hi Hone.
  assert (Habs : squarings a d n j = 1)
    by (apply (squarings_one_stays a d n i j); lia || assumption).
  lia.
Qed.

End PrimeModulus.

Lemma not_prime_composite (n : Z) : 1 < n -> ~ Z.prime n -> composite n.
Proof.
  intros Hn Hnp.
  destruct (not_prime_divide n Hn) as (p & Hp & q & Hq).
  { intros H. now apply Hnp, prime_alt. }
  exists p, q. split; [assumption|]. split; [nia|lia].
Qed.

Lemma composite_not_prime (n : Z) : composite n -> ~ Z.prime n.
Proof.
  intros (p & q & Hp & Hq & E) [_ Hdiv].
  apply (Hdiv p Hp). exists q. lia.
Qed.

(** C2: on the contract of the witness evaluator with [n - 1 = d * 2^s],
    an answer [true] of [check_composite] is a proof that [n] is
    composite: no prime [n] has a base that answers [true]. *)
Theorem check_composite_sound (a d n s : Z) :
  Z.odd n = true -> 3 <= n -> int64 n -> 2 <= a < n ->
  Z.odd d = true -> int64 d -> 1 <= s -> int32 s -> n - 1 = d * 2 ^ s ->
  check_composite a d n s = Ret true -> composite n.
Proof.
  intros On Hn In Ha Od Id Hs Is Hdec Hrun.
  assert (Hd : 1 <= d).
  { assert (0 < 2 ^ s) by (apply Z.pow_pos_nonneg; lia). nia. }
  apply not_prime_composite; [lia|]. intros Hp.
  assert (Ia : int64 a) by (int_bounds; lia).
  destruct (check_composite_spec a d n s) as (b & Hrun' & Hb);
    try assumption; try lia.
  assert (Hnw : not_a_witness a d n s)
    by (apply prime_not_a_witness; assumption || lia).
  apply Hb in Hnw. subst b. congruence.
Qed.

Lemma check_composite_sound_witness :
  (Z.odd 341 = true /\ 3 <= 341 /\ int64 341 /\ 2 <= 2 < 341 /\
   Z.odd 85 = true /\ int64 85 /\ 1 <= 2 /\ int32 2 /\
   341 - 1 = 85 * 2 ^ 2 /\ check_composite 2 85 341 2 = Ret true) /\
  composite 341.
Proof.
  assert (I1 : int64 341) by (int_bounds; lia).
  assert (I2 : int64 85) by (int_bounds; lia).
  assert (I3 : int32 2) by (int_bounds; lia).
  split.
  - repeat split; try assumption; try reflexivity; lia.
  - apply (check_composite_sound 2 85 341 2);
      try assumption; try reflexivity; lia.
Defined.

(** ** The decision *)

Lemma decompose_S (fuel : nat) (d s : Z) :
  decompose (S fuel) d s =
    if Z.land d 1 =? 0 then decompose fuel (Z.shiftr d 1) (wrap32 (s + 1))
    else Ret (d, s).
Proof. reflexivity. Qed.

(** The halving loop on a positive [d] below [2^k] leaves within [k]
    tests with the odd part of [d] and the count of halvings added to
    [s]. *)
Lemma decompose_spec (k : nat) :
  forall d s : Z,
    0 < d < 2 ^ Z.of_nat k -> 0 <= s -> s + Z.of_nat k < 2147483648 ->
    exists d' s' : Z,
      decompose k d s = Ret (d', s') /\
      Z.odd d' = true /\ 0 < d' /\
      d * 2 ^ s = d' * 2 ^ s' /\
      s <= s' < s + Z.of_nat k /\
      (Z.even d = true -> s < s').
Proof.
  induction k as [|k IH]; intros d s Hd Hs Hk.
  - change (2 ^ Z.of_nat 0) with 1 in Hd. lia.
  - rewrite decompose_S, land_1, shiftr_1.
    pose proof (Z.div_mod d 2 ltac:(lia)) as Hdm.
    pose proof (Z.mod_pos_bound d 2 ltac:(lia)) as Hbit.
    rewrite Nat2Z.inj_succ, Z.pow_succ_r in Hd by lia.
    destruct (Z.eqb_spec (d mod 2) 0) as [E|E].
    + rewrite wrap32_id by (int_bounds; lia).
      destruct (IH (d / 2) (s + 1))
        as (d' & s' & Hrun & Hodd & Hpos & Heq & Hs' & _);
        [lia|lia|lia|].
      exists d', s'. split; [assumption|]. split; [assumption|].
      split; [assumption|]. split.
      * rewrite <- Heq, Z.pow_add_r, Z.pow_1_r by lia.
        rewrite Hdm at 1. rewrite E. ring.
      * split; [lia|]. intros _. lia.
    + exists d, s. split; [reflexivity|].
      assert (Hodd : Z.odd d = true).
      { rewrite Zodd_mod. apply Z.eqb_eq. lia. }
      split; [assumption|]. split; [lia|]. split; [reflexivity|].
      split; [lia|]. intros He. rewrite <- Z.negb_odd, Hodd in He. discriminate.
Qed.

(** The loop over the bases, given that the witness evaluator returns on
    every base below [n]: the answer is [true] exactly when none of these
    bases is a witness. *)
Lemma bases_loop_spec (d n s : Z) (bases : list Z) :
  (forall a, In a bases -> a < n ->
             exists c, check_composite a d n s = Ret c) ->
  exists b : bool,
    bases_loop bases d n s = Ret b /\
    (b = true <->
     forall a, In a bases -> a < n -> check_composite a d n s = Ret false).
Proof.
  induction bases as [|a rest IH]; intros Htotal; cbn [bases_loop].
  - exists true. split; [reflexivity|]. split; [|reflexivity].
    intros _ a [].
  - destruct IH as (b & Hrun & Hb).
    { intros a' Hin. apply Htotal. now right. }
    destruct (Z.geb_spec a n) as [Hge|Hlt].
    + exists b. split; [assumption|]. rewrite Hb. split.
      * intros H a' [<-|Hin] Ha'; [lia|now apply H].
      * intros H a' Hin. apply H. now right.
    + destruct (Htotal a (or_introl eq_refl) Hlt) as ([|] & Hc);
        rewrite Hc; cbn [bind].
      * exists false. split; [reflexivity|]. split; [discriminate|].
        intros H. specialize (H a (or_introl eq_refl) Hlt). congruence.
      * exists b. split; [assumption|]. rewrite Hb. split.
        -- intros H a' [<-|Hin] Ha'; [assumption|now apply H].
        -- intros H a' Hin. apply H. now right.
Qed.

(** Bases that are not below [n] are skipped. *)
Lemma bases_loop_skip (d n s : Z) (bases : list Z) :
  bases_loop bases d n s = bases_loop (filter (fun a => a <? n) bases) d n s.
Proof.
  induction bases as [|a rest IH]; [reflexivity|].
  cbn [bases_loop filter].
  destruct (Z.geb_spec a n) as [Hge|Hlt]; destruct (Z.ltb_spec a n); try lia.
  - assumption.
  - cbn [bases_loop]. destruct (Z.geb_spec a n); [lia|]. now rewrite IH.
Qed.

(** The loop leaves at the first witness: what follows it in the list
    is not looked at. *)
Lemma bases_loop_first_witness (d n s : Z) (before : list Z) (a : Z) :
  (forall a', In a' before -> a' < n -> check_composite a' d n s = Ret false) ->
  a < n -> check_composite a d n s = Ret true ->
  forall rest, bases_loop (before ++ a :: rest) d n s = Ret false.
Proof.
  intros Hbefore Ha Hwit rest.
  induction before as [|a' before IH]; cbn [app bases_loop].
  - destruct (Z.geb_spec a n); [lia|]. now rewrite Hwit.
  - destruct (Z.geb_spec a' n) as [Hge|Hlt].
    + apply IH. intros x Hin. apply Hbefore. now right.
    + rewrite (Hbefore a' (or_introl eq_refl) Hlt). cbn [bind].
      apply IH. intros x Hin. apply Hbefore. now right.
Qed.

(** On an odd [n >= 3], [isPrime] decomposes [n - 1] and runs the loop
    over the bases. *)
Lemma isPrime_odd_unfold (n : Z) :
  Z.odd n = true -> 3 <= n -> int64 n ->
  exists d s : Z,
    decompose decompose_fuel (wrap64 (n - 1)) 0 = Ret (d, s) /\
    n - 1 = d * 2 ^ s /\ Z.odd d = true /\ 0 < d < n /\ 1 <= s < 64 /\
    isPrime n = bases_loop test_bases d n s.
Proof.
  intros On Hn In.
  assert (Hmod : n mod 2 = 1) by (rewrite Zodd_mod in On; now apply Z.eqb_eq).
  assert (Hw : wrap64 (n - 1) = n - 1) by now apply wrap64_pred_n.
  assert (Heven : Z.even (n - 1) = true).
  { rewrite Zeven_mod. apply Z.eqb_eq.
    clear - Hmod. Z.to_euclidean_division_equations. lia. }
  destruct (decompose_spec 64 (n - 1) 0)
    as (d & s & Hrun & Hodd & Hpos & Heq & Hs & Hs1); [|lia|lia|].
  { int_bounds. change (2 ^ Z.of_nat 64) with 18446744073709551616. lia. }
  specialize (Hs1 Heven).
  exists d, s. rewrite Hw. split; [assumption|].
  rewrite Z.pow_0_r, Z.mul_1_r in Heq.
  split; [assumption|]. split; [assumption|]. split.
  - assert (2 <= 2 ^ s).
    { change 2 with (2 ^ 1) at 1. apply Z.pow_le_mono_r; lia. }
    nia.
  - split; [lia|]. unfold isPrime.
    destruct (Z.ltb_spec n 2); [lia|].
    rewrite Z.rem_mod_nonneg, Hmod by lia. cbn [Z.eqb].
    rewrite Hw. unfold decompose_fuel in *. rewrite Hrun. reflexivity.
Qed.

Lemma test_bases_ge_2 (a : Z) : In a test_bases -> 2 <= a <= 17.
Proof. unfold test_bases. cbn [In]. lia. Qed.

(** C4: on every odd [n >= 3], [isPrime] first decomposes [n - 1] as
    [d * 2^s] with [d] odd and [s >= 1], then runs the bases
    [2, 3, 5, 7, 11, 13, 17] in that order, skipping those that are not
    below [n]; it answers [false] at the first base that is a witness,
    whatever bases follow, and [true] exactly when no base below [n] is a
    witness. *)
Theorem isPrime_odd (n : Z) :
  Z.odd n = true -> 3 <= n -> int64 n ->
  exists d s : Z,
    decompose decompose_fuel (n - 1) 0 = Ret (d, s) /\
    n - 1 = d * 2 ^ s /\ Z.odd d = true /\ 1 <= s /\
    isPrime n = bases_loop test_bases d n s /\
    isPrime n = bases_loop (filter (fun a => a <? n) test_bases) d n s /\
    (isPrime n = Ret true <->
     forall a, In a test_bases -> a < n ->
               check_composite a d n s = Ret false) /\
    (isPrime n = Ret false <->
     exists a, In a test_bases /\ a < n /\
               check_composite a d n s = Ret true) /\
    (forall before a after,
        test_bases = before ++ a :: after ->
        (forall a', In a' before -> a' < n ->
                    check_composite a' d n s = Ret false) ->
        a < n -> check_composite a d n s = Ret true ->
        isPrime n = Ret false /\
        forall rest, bases_loop (before ++ a :: rest) d n s = Ret false).
Proof.
  intros On Hn I64.
  destruct (isPrime_odd_unfold n On Hn I64)
    as (d & s & Hdec & Heq & Hodd & Hd & Hs & Hrun).
  rewrite wrap64_pred_n in Hdec by assumption.
  assert (Id : int64 d) by (int_bounds; lia).
  assert (Is : int32 s) by (int_bounds; lia).
  assert (Htotal : forall a, In a test_bases -> a < n ->
                             exists c, check_composite a d n s = Ret c).
  { intros a Hin Ha. apply test_bases_ge_2 in Hin.
    destruct (check_composite_spec a d n s) as (c & Hc & _);
      try assumption; try lia; [int_bounds; lia|now exists c]. }
  destruct (bases_loop_spec d n s test_bases Htotal) as (b & Hloop & Hb).
  exists d, s. split; [assumption|]. split; [assumption|].
  split; [assumption|]. split; [lia|]. split; [assumption|].
  split; [now rewrite Hrun, <- bases_loop_skip|].
  rewrite Hrun, Hloop. split; [|split].
  - rewrite <- Hb. split; [now intros [= ->]|now intros ->].
  - split.
    + intros [= ->].
      assert (Hex : ~ forall a, In a test_bases -> a < n ->
                               check_composite a d n s = Ret false)
        by (intros H; apply Hb in H; discriminate).
      clear Hb Hloop Hrun.
      assert (Hfind : forall l,
                 (forall a, In a l -> In a test_bases) ->
                 (exists a, In a l /\ a < n /\
                            check_composite a d n s = Ret true) \/
                 (forall a, In a l -> a < n ->
                            check_composite a d n s = Ret false)).
      { induction l as [|x l IHl]; intros Hsub.
        - right. intros a [].
        - destruct IHl as [(a & Hin & Ha & Hc)|Hall].
          + intros a Hin. apply Hsub. now right.
          + left. exists a. split; [now right|]. now split.
          + destruct (Z.lt_ge_cases x n) as [Hx|Hx].
            * destruct (Htotal x (Hsub x (or_introl eq_refl)) Hx)
                as ([|] & Hc).
              -- left. exists x. split; [now left|]. now split.
              -- right. intros a [<-|Hin] Ha; [assumption|now apply Hall].
            * right. intros a [<-|Hin] Ha; [lia|now apply Hall]. }
      destruct (Hfind test_bases ltac:(auto)) as [Hwit|Hall];
        [|contradiction].
      destruct Hwit as (a & Hin & Ha & Hc). exists a. now repeat split.
    + intros (a & Hin & Ha & Hc). destruct b; [|reflexivity].
      assert (Hall := proj1 Hb eq_refl a Hin Ha). congruence.
  - intros before a after Hsplit Hbefore Ha Hwit.
    pose proof (bases_loop_first_witness d n s before a Hbefore Ha Hwit)
      as Hfirst.
    split; [|assumption].
    rewrite <- Hloop, Hsplit. apply Hfirst.
Qed.

Lemma isPrime_odd_witness :
  (Z.odd 3215031751 = true /\ 3 <= 3215031751 /\ int64 3215031751) /\
  isPrime 3215031751 = Ret false /\
  check_composite 2 1607515875 3215031751 1 = Ret false /\
  check_composite 3 1607515875 3215031751 1 = Ret false /\
  check_composite 5 1607515875 3215031751 1 = Ret false /\
  check_composite 7 1607515875 3215031751 1 = Ret false /\
  check_composite 11 1607515875 3215031751 1 = Ret true.
Proof.
  assert (I : int64 3215031751) by (int_bounds; lia).
  split; [split; [reflexivity|split; [lia|exact I]]|].
  destruct (isPrime_odd 3215031751 eq_refl ltac:(lia) I)
    as (d & s & Hdec & _ & _ & _ & _ & _ & _ & _ & Hfirst).
  assert (E : d = 1607515875 /\ s = 1).
  { vm_compute in Hdec. injection Hdec as <- <-. now split. }
  destruct E as [-> ->].
  assert (H2 : check_composite 2 1607515875 3215031751 1 = Ret false)
    by (vm_compute; reflexivity).
  assert (H3 : check_composite 3 1607515875 3215031751 1 = Ret false)
    by (vm_compute; reflexivity).
  assert (H5 : check_composite 5 1607515875 3215031751 1 = Ret false)
    by (vm_compute; reflexivity).
  assert (H7 : check_composite 7 1607515875 3215031751 1 = Ret false)
    by (vm_compute; reflexivity).
  assert (H11 : check_composite 11 1607515875 3215031751 1 = Ret true)
    by (vm_compute; reflexivity).
  refine (conj _ (conj H2 (conj H3 (conj H5 (conj H7 H11))))).
  refine (proj1 (Hfirst [2; 3; 5; 7] 11 [13; 17] eq_refl _ _ H11)); [|lia].
  intros a' [<-|[<-|[<-|[<-|[]]]]] _; assumption.
Defined.

(** ** Verdicts *)

(** [isPrime] returns a verdict on every [long long]. *)
Lemma isPrime_total (n : Z) : int64 n -> exists b, isPrime n = Ret b.
Proof.
  intros I64.
  destruct (Z.lt_ge_cases n 2) as [Hlt|Hge].
  { exists false. now apply isPrime_below_2. }
  destruct (Z.odd n) eqn:On.
  - assert (Hn : 3 <= n).
    { destruct (Z.eq_dec n 2) as [->|]; [discriminate|lia]. }
    destruct (isPrime_odd_unfold n On Hn I64)
      as (d & s & _ & _ & _ & Hd & Hs & ->).
    destruct (bases_loop_spec d n s test_bases) as (b & Hb & _);
      [|now exists b].
    intros a Hin Ha. apply test_bases_ge_2 in Hin.
    destruct (check_composite_spec a d n s) as (c & Hc & _);
      try assumption; try lia; try (int_bounds; lia).
    now exists c.
  - destruct (Z.eq_dec n 2) as [->|Hne]; [now exists true|].
    exists false. apply isPrime_even; [lia|].
    now rewrite <- Z.negb_odd, On.
Qed.

(** No prime is rejected: the verdict on a prime is [true]. *)
Lemma isPrime_accepts_primes (n : Z) :
  Z.prime n -> int64 n -> isPrime n = Ret true.
Proof.
  intros Hp I64. pose proof (Z.prime_ge_2 n Hp) as Hge.
  destruct (Z.eq_dec n 2) as [->|Hne]; [reflexivity|].
  assert (On : Z.odd n = true).
  { destruct (Z.odd n) eqn:E; [reflexivity|exfalso].
    destruct Hp as [_ Hdiv]. apply (Hdiv 2); [lia|].
    apply Z.mod_divide; [lia|].
    rewrite Zodd_mod in E. apply Z.eqb_neq in E.
    pose proof (Z.mod_pos_bound n 2 ltac:(lia)). lia. }
  destruct (isPrime_odd_unfold n On ltac:(lia) I64)
    as (d & s & _ & Heq & _ & Hd & Hs & ->).
  assert (Hpass : forall a, In a test_bases -> a < n ->
                            check_composite a d n s = Ret false).
  { intros a Hin Ha. apply test_bases_ge_2 in Hin.
    destruct (check_composite_spec a d n s) as (c & Hc & Hiff);
      try assumption; try lia; try (int_bounds; lia).
    rewrite Hc. f_equal. apply Hiff.
    apply prime_not_a_witness; assumption || lia. }
  destruct (bases_loop_spec d n s test_bases) as (b & Hb & Hiff).
  { intros a Hin Ha. exists false. now apply Hpass. }
  rewrite Hb. f_equal. now apply Hiff.
Qed.

(** A verdict [false] is always right. *)
Lemma isPrime_false_not_prime (n : Z) :
  int64 n -> isPrime n = Ret false -> ~ Z.prime n.
Proof.
  intros I64 Hfalse Hp.
  rewrite (isPrime_accepts_primes n Hp I64) in Hfalse. discriminate.
Qed.

(** C1 at [n = 341550071728321 = 10670053 * 32010157]: this composite
    [long long] passes all of the bases [2, 3, 5, 7, 11, 13, 17], so the
    verdict of [isPrime] is [true]; base [23] would have caught it. *)
Theorem isPrime_accepts_a_composite :
  int64 341550071728321 /\
  composite 341550071728321 /\
  isPrime 341550071728321 = Ret true /\
  decompose decompose_fuel (341550071728321 - 1) 0 = Ret (5336719870755, 6) /\
  Forall
    (fun a => check_composite a 5336719870755 341550071728321 6 = Ret false)
    test_bases /\
  check_composite 23 5336719870755 341550071728321 6 = Ret true.
Proof.
  split; [int_bounds; lia|].
  split.
  { exists 10670053, 32010157. repeat split; reflexivity. }
  split; [vm_compute; reflexivity|].
  split; [vm_compute; reflexivity|].
  split; [|vm_compute; reflexivity].
  repeat (apply Forall_cons; [vm_compute; reflexivity|]). apply Forall_nil.
Qed.

(** C9, as amended: [isPrime] gives the listed verdicts on the reference
    inputs, and [341] is caught by the first base, [2], already. *)
Theorem isPrime_reference_verdicts :
  reference_verdicts /\ reports_witness 341 2.
Proof.
  split.
  - unfold reference_verdicts.
    repeat (split; [vm_compute; reflexivity|]).
    repeat (apply Forall_cons; [vm_compute; reflexivity|]). apply Forall_nil.
  - exists 85, 2. split; vm_compute; reflexivity.
Qed.

(** C9, as stated, fails: [341] is not a strong pseudoprime to base [2]
    ([2^85 mod 341 = 32] and [32^2 mod 341 = 1]), so it is not left to a
    later base. *)
Lemma reference_341_not_caught_after_base_2 :
  ~ (reference_verdicts /\ caught_after_base_2 341).
Proof.
  intros [_ [Hnot _]]. apply Hnot.
  exists 85, 2. split; vm_compute; reflexivity.
Qed.

(** * Further properties of the program *)

(** ** The multiplication kernel on signed operands *)

Lemma int64_abs (x : Z) : int64 x -> Z.abs x <= 9223372036854775808.
Proof. intros I. int_bounds. lia. Qed.

Lemma small_abs_int64 (x : Z) : Z.abs x < 9223372036854775808 -> int64 x.
Proof. intros H. int_bounds. lia. Qed.

Lemma small_abs_int128 (x : Z) : Z.abs x < 9223372036854775808 -> int128 x.
Proof.
  intros H. apply int128_bounds.
  assert (9223372036854775808 <= 2 ^ 127) by (vm_compute; discriminate).
  lia.
Qed.

(** Whatever the signs, [mulmod] on [long long] operands and a non-zero
    modulus is the truncating remainder of the exact product. *)
Lemma mulmod_rem (a b m : Z) :
  int64 a -> int64 b -> int64 m -> m <> 0 ->
  mulmod a b m = Ret (Z.rem (a * b) m) /\ int64 (Z.rem (a * b) m).
Proof.
  intros Ia Ib Im Hm.
  pose proof (Z.rem_bound_abs (a * b) m Hm) as Hb.
  pose proof (int64_abs m Im) as Hma.
  assert (Hr : Z.abs (Z.rem (a * b) m) < 9223372036854775808) by lia.
  split; [|now apply small_abs_int64].
  unfold mulmod. destruct (Z.eqb_spec m 0) as [?|_]; [contradiction|].
  rewrite (wrap128_id (a * b)) by now apply product_int128.
  rewrite wrap128_id by now apply small_abs_int128.
  rewrite wrap64_id by now apply small_abs_int64.
  reflexivity.
Qed.

(** X1: for all [long long] operands, negative ones included, and every
    non-zero modulus, [mulmod a b m] is the truncating remainder of the
    exact product [a * b] by [m]: it is smaller than [m] in absolute
    value, it is zero or has the sign of the product, and it differs from
    the product by a multiple of [m]. *)
Theorem mulmod_signed (a b m : Z) :
  int64 a -> int64 b -> int64 m -> m <> 0 ->
  exists r : Z,
    mulmod a b m = Ret r /\ int64 r /\
    Z.abs r < Z.abs m /\ 0 <= r * (a * b) /\ (m | a * b - r).
Proof.
  intros Ia Ib Im Hm.
  destruct (mulmod_rem a b m Ia Ib Im Hm) as [Hrun Ir].
  exists (Z.rem (a * b) m).
  split; [assumption|]. split; [assumption|].
  split; [now apply Z.rem_bound_abs|].
  split; [now apply Z.rem_sign_mul|].
  exists (Z.quot (a * b) m).
  pose proof (Z.quot_rem' (a * b) m). lia.
Qed.

Lemma mulmod_signed_witness :
  (int64 (-7) /\ int64 (Int.min_signed 64) /\ int64 (-10) /\ -10 <> 0) /\
  mulmod (-7) 5 (-10) = Ret (-5) /\
  mulmod (Int.min_signed 64) (Int.min_signed 64) (-10) = Ret 4.
Proof.
  assert (I7 : int64 (-7)) by (int_bounds; lia).
  assert (I5 : int64 5) by (int_bounds; lia).
  assert (Imin : int64 (Int.min_signed 64))
    by (int_bounds; vm_compute; intuition discriminate).
  assert (I10 : int64 (-10)) by (int_bounds; lia).
  assert (Hnz : -10 <> 0) by lia.
  split; [now repeat split|].
  destruct (mulmod_signed (-7) 5 (-10) I7 I5 I10 Hnz) as (r & Hr & _).
  destruct (mulmod_signed (Int.min_signed 64) (Int.min_signed 64) (-10)
              Imin Imin I10 Hnz) as (r' & Hr' & _).
  split.
  - rewrite Hr. vm_compute in Hr. exact (eq_sym Hr).
  - rewrite Hr'. vm_compute in Hr'. exact (eq_sym Hr').
Defined.

(** ** Modular exponentiation on signed operands *)

Lemma pow_rem (x q m : Z) :
  m <> 0 -> 0 <= q -> Z.rem (Z.rem x m ^ q) m = Z.rem (x ^ q) m.
Proof.
  intros Hm Hq. revert q Hq. apply natlike_ind.
  - reflexivity.
  - intros q Hq IH. rewrite !Z.pow_succ_r by assumption.
    rewrite Z.mul_rem_idemp_l by assumption.
    rewrite <- Z.mul_rem_idemp_r, IH by assumption.
    now apply Z.mul_rem_idemp_r.
Qed.

Lemma mul_pow_rem (r x q m : Z) :
  m <> 0 -> 0 <= q -> Z.rem (r * Z.rem x m ^ q) m = Z.rem (r * x ^ q) m.
Proof.
  intros Hm Hq.
  rewrite <- Z.mul_rem_idemp_r, pow_rem by assumption.
  now apply Z.mul_rem_idemp_r.
Qed.

Section ModexpLoopSigned.

Variable m : Z.
Hypothesis m_nonzero : m <> 0.
Hypothesis m_int64 : int64 m.

(** The loop from any state of [long long] values: the invariant of
    [modexp_loop_spec] with the truncating remainder in place of the
    modulo. *)
Lemma modexp_loop_rem (k : nat) :
  forall result a b : Z,
    int64 result -> int64 a -> 0 <= b < 2 ^ Z.of_nat k ->
    modexp_loop (S k) result a b m =
      Ret (if b =? 0 then result else Z.rem (result * a ^ b) m).
Proof using m_nonzero m_int64.
  induction k as [|k IH]; intros result a b Ir Ia Hb.
  - assert (b = 0) by (change (2 ^ Z.of_nat 0) with 1 in Hb; lia).
    subst b. reflexivity.
  - rewrite modexp_loop_S.
    destruct (Z.eqb_spec b 0) as [->|Hb0]; [reflexivity|].
    destruct (Z.gtb_spec b 0) as [Hpos|?]; [|lia].
    rewrite land_1, shiftr_1.
    pose proof (Z.mod_pos_bound b 2 ltac:(lia)) as Hbit.
    assert (Hq : 0 <= b / 2 < 2 ^ Z.of_nat k).
    { split; [apply Z.div_pos; lia|].
      apply Z.div_lt_upper_bound; [lia|].
      rewrite Nat2Z.inj_succ, Z.pow_succ_r in Hb by lia. lia. }
    destruct (mulmod_rem a a m Ia Ia m_int64 m_nonzero) as [Hsq Isq].
    destruct (mulmod_rem result a m Ir Ia m_int64 m_nonzero) as [Hmul Imul].
    rewrite (pow_low_bit a b) by lia.
    destruct (Z.eqb_spec (b mod 2) 0) as [E|E]; cbn [negb bind].
    + rewrite Hsq. cbn [bind]. rewrite IH by assumption.
      rewrite E, Z.pow_0_r, Z.mul_1_l.
      destruct (Z.eqb_spec (b / 2) 0) as [Eq|Eq].
      * exfalso. pose proof (Z.div_mod b 2 ltac:(lia)). lia.
      * apply f_equal, mul_pow_rem; [assumption|lia].
    + assert (E1 : b mod 2 = 1) by lia.
      rewrite Hmul. cbn [bind]. rewrite Hsq. cbn [bind].
      rewrite IH by assumption.
      rewrite E1, Z.pow_1_r.
      destruct (Z.eqb_spec (b / 2) 0) as [Eq|Eq].
      * now rewrite Eq, Z.pow_0_r, Z.mul_1_r.
      * rewrite mul_pow_rem, Z.mul_rem_idemp_l, Z.mul_assoc
          by (assumption || lia).
        reflexivity.
Qed.

End ModexpLoopSigned.

(** X2: for every [long long] base, negative ones included, every
    exponent [e >= 1] and every non-zero modulus, [modexp a e m] is the
    truncating remainder of [a^e] by [m]: smaller than [m] in absolute
    value and zero or of the sign of [a^e]. *)
Theorem modexp_signed (a e m : Z) :
  int64 a -> int64 e -> 0 < e -> int64 m -> m <> 0 ->
  modexp a e m = Ret (Z.rem (a ^ e) m) /\
  Z.abs (Z.rem (a ^ e) m) < Z.abs m /\ 0 <= Z.rem (a ^ e) m * a ^ e.
Proof.
  intros Ia Ie He Im Hm.
  split; [|split; [now apply Z.rem_bound_abs|now apply Z.rem_sign_mul]].
  unfold modexp, modexp_fuel.
  rewrite (modexp_loop_rem m Hm Im 63 1 a e); try assumption.
  - destruct (Z.eqb_spec e 0); [lia|]. now rewrite Z.mul_1_l.
  - int_bounds. lia.
  - int_bounds. change (2 ^ Z.of_nat 63) with 9223372036854775808. lia.
Qed.

Lemma modexp_signed_witness :
  (int64 (-3) /\ int64 5 /\ 0 < 5 /\ int64 (-7) /\ -7 <> 0) /\
  modexp (-3) 5 (-7) = Ret (-5).
Proof.
  assert (I3 : int64 (-3)) by (int_bounds; lia).
  assert (I5 : int64 5) by (int_bounds; lia).
  assert (I7 : int64 (-7)) by (int_bounds; lia).
  split; [repeat split; assumption || lia|].
  apply (modexp_signed (-3) 5 (-7) I3 I5 ltac:(lia) I7 ltac:(lia)).
Defined.

(** With a zero modulus the first iteration already divides by zero. *)
Lemma modexp_loop_zero_modulus (fuel : nat) (result a b : Z) :
  0 < b -> modexp_loop (S fuel) result a b 0 = DivByZero.
Proof.
  intros Hb. rewrite modexp_loop_S.
  destruct (Z.gtb_spec b 0); [|lia].
  unfold mulmod. cbn [Z.eqb]. now destruct (negb _).
Qed.

(** X3: on a [long long] exponent, [modexp] divides by zero exactly when
    the modulus is [0] and the exponent is positive; in every other case
    it returns a value. *)
Theorem modexp_division_by_zero (a b m : Z) :
  int64 b ->
  (modexp a b m = DivByZero <-> m = 0 /\ 0 < b) /\
  (m <> 0 \/ b <= 0 -> exists r, modexp a b m = Ret r).
Proof.
  intros Ib.
  assert (Hb : b < 2 ^ Z.of_nat 63).
  { int_bounds. change (2 ^ Z.of_nat 63) with 9223372036854775808. lia. }
  assert (Hret : m <> 0 \/ b <= 0 -> exists r, modexp a b m = Ret r).
  { intros [Hm|Hle].
    - now apply modexp_loop_returns.
    - exists 1. unfold modexp, modexp_fuel. rewrite modexp_loop_S.
      destruct (Z.gtb_spec b 0); [lia|reflexivity]. }
  split; [|assumption]. split.
  - intros Hdiv.
    destruct (Z.eq_dec m 0) as [->|Hm].
    + split; [reflexivity|].
      destruct (Z.lt_ge_cases 0 b) as [|Hle]; [assumption|].
      destruct (Hret (or_intror Hle)) as (r & Hr). congruence.
    + destruct (Hret (or_introl Hm)) as (r & Hr). congruence.
  - intros [-> Hpos]. now apply modexp_loop_zero_modulus.
Qed.

Lemma modexp_division_by_zero_witness :
  int64 12 /\ modexp 5 12 0 = DivByZero /\ modexp 5 0 0 = Ret 1.
Proof.
  assert (I : int64 12) by (int_bounds; lia).
  split; [exact I|].
  destruct (modexp_division_by_zero 5 12 0 I) as [Hiff _].
  split; [apply Hiff; split; [reflexivity|lia]|reflexivity].
Defined.

(** X4: on the contract of [modexp] with a modulus above [1], exponents
    compose: the power to a sum of exponents is the [mulmod] of the two
    powers, and the power of a power is the power to the product. *)
Theorem modexp_exponent_laws (a e1 e2 m : Z) :
  0 <= a -> int64 a -> 0 <= e1 -> int64 e1 -> 0 <= e2 -> int64 e2 ->
  1 < m -> int64 m ->
  exists r1 r2 : Z,
    modexp a e1 m = Ret r1 /\ modexp a e2 m = Ret r2 /\
    (int64 (e1 + e2) -> modexp a (e1 + e2) m = mulmod r1 r2 m) /\
    (int64 (e1 * e2) -> modexp a (e1 * e2) m = modexp r1 e2 m).
Proof.
  intros Ha Ia He1 Ie1 He2 Ie2 Hm Im.
  assert (Hm0 : 0 < m) by lia.
  pose proof (Z.mod_pos_bound (a ^ e1) m Hm0) as B1.
  pose proof (Z.mod_pos_bound (a ^ e2) m Hm0) as B2.
  assert (I1 : int64 (a ^ e1 mod m)) by (int_bounds; lia).
  assert (I2 : int64 (a ^ e2 mod m)) by (int_bounds; lia).
  exists (a ^ e1 mod m), (a ^ e2 mod m).
  split; [|split; [|split]].
  - apply modexp_pow; try assumption; lia.
  - apply modexp_pow; try assumption; lia.
  - intros Isum.
    rewrite (proj1 (modexp_pow a (e1 + e2) m Ha Ia ltac:(lia) Isum Hm0 Im
                      (or_intror Hm))).
    rewrite mulmod_nonneg by (assumption || lia).
    now rewrite <- Z.mul_mod, Z.pow_add_r by lia.
  - intros Iprod.
    rewrite (proj1 (modexp_pow a (e1 * e2) m Ha Ia ltac:(lia) Iprod Hm0 Im
                      (or_intror Hm))).
    rewrite (proj1 (modexp_pow (a ^ e1 mod m) e2 m ltac:(lia) I1 He2 Ie2
                      Hm0 Im (or_intror Hm))).
    now rewrite Z.mod_pow_l, Z.pow_mul_r by lia.
Qed.

Lemma modexp_exponent_laws_witness :
  (0 <= 2 /\ int64 2 /\ 0 <= 85 /\ int64 85 /\ 0 <= 2 /\ 1 < 341 /\
   int64 341) /\
  modexp 2 85 341 = Ret 32 /\ modexp 2 2 341 = Ret 4 /\
  modexp 2 87 341 = mulmod 32 4 341 /\ modexp 2 170 341 = modexp 32 2 341.
Proof.
  assert (I2 : int64 2) by (int_bounds; lia).
  assert (I85 : int64 85) by (int_bounds; lia).
  assert (I341 : int64 341) by (int_bounds; lia).
  assert (I87 : int64 (85 + 2)) by (int_bounds; lia).
  assert (I170 : int64 (85 * 2)) by (int_bounds; lia).
  split; [repeat split; assumption || lia|].
  destruct (modexp_exponent_laws 2 85 2 341 ltac:(lia) I2 ltac:(lia) I85
              ltac:(lia) I2 ltac:(lia) I341)
    as (r1 & r2 & H1 & H2 & Hadd & Hmul).
  assert (E1 : r1 = 32) by (vm_compute in H1; congruence).
  assert (E2 : r2 = 4) by (vm_compute in H2; congruence).
  subst r1 r2.
  exact (conj H1 (conj H2 (conj (Hadd I87) (Hmul I170)))).
Defined.

(** ** The witness evaluator and probable primes *)

Lemma squarings_pow (a d n r : Z) :
  0 <= d -> 0 <= r -> squarings a d n r = a ^ (d * 2 ^ r) mod n.
Proof.
  intros Hd Hr. unfold squarings.
  rewrite Z.pow_mul_r by (try apply Z.pow_nonneg; lia). reflexivity.
Qed.

(** After [n - 1] the sequence is [1]. *)
Lemma squarings_after_minus_one (a d n r : Z) :
  3 <= n -> 0 <= r -> squarings a d n r = n - 1 ->
  squarings a d n (r + 1) = 1.
Proof.
  intros Hn Hr Hm. rewrite squarings_succ, Hm by lia.
  replace ((n - 1) * (n - 1)) with (1 + (n - 2) * n) by ring.
  rewrite Z.mod_add by lia. apply Z.mod_1_l. lia.
Qed.

Lemma not_a_witness_strong_probable_prime (a d n s : Z) :
  3 <= n -> 0 <= d -> 1 <= s ->
  not_a_witness a d n s <-> strong_probable_prime a d n s.
Proof.
  intros Hn Hd Hs. unfold not_a_witness, strong_probable_prime. split.
  - intros [E|[E|(r & Hr & Hm & _)]].
    + left. now rewrite <- squarings_0.
    + right. exists 0. split; [lia|]. now rewrite <- squarings_pow by lia.
    + right. exists r. split; [lia|]. now rewrite <- squarings_pow by lia.
  - intros [E|(r & Hr & Hm)].
    + left. now rewrite squarings_0.
    + rewrite <- squarings_pow in Hm by lia.
      destruct (Z.eq_dec r 0) as [->|Hr0]; [right; now left|].
      right. right. exists r. split; [lia|]. split; [assumption|].
      intros j Hj Hone.
      assert (Habs : squarings a d n r = 1)
        by (apply (squarings_one_stays a d n j r); lia || assumption).
      lia.
Qed.

(** A strong probable prime to base [a] is a Fermat probable prime to
    base [a]. *)
Lemma strong_probable_prime_fermat (a d n s : Z) :
  3 <= n -> 0 <= d -> 1 <= s -> n - 1 = d * 2 ^ s ->
  strong_probable_prime a d n s -> a ^ (n - 1) mod n = 1.
Proof.
  intros Hn Hd Hs Hdec Hspp.
  rewrite Hdec, <- squarings_pow by lia.
  destruct Hspp as [E|(r & Hr & Hm)].
  - apply (squarings_one_stays a d n 0 s); [lia|lia|].
    now rewrite squarings_0.
  - rewrite <- squarings_pow in Hm by lia.
    apply (squarings_one_stays a d n (r + 1) s); [lia|lia|].
    apply squarings_after_minus_one; assumption || lia.
Qed.

(** X5: on the contract of the witness evaluator, [check_composite]
    answers [false] exactly when [n] is a strong probable prime to base
    [a]: [a^d = 1] or [a^(d * 2^r) = -1] modulo [n] for some
    [0 <= r < s]; it answers [true] in every other case. *)
Theorem check_composite_strong_probable_prime (a d n s : Z) :
  3 <= n -> int64 n -> 2 <= a < n -> 1 <= d -> int64 d ->
  1 <= s -> int32 s ->
  (check_composite a d n s = Ret false <-> strong_probable_prime a d n s) /\
  (check_composite a d n s = Ret true <-> ~ strong_probable_prime a d n s).
Proof.
  intros Hn I64 Ha Hd Id Hs Is.
  assert (Ia : int64 a) by (int_bounds; lia).
  destruct (check_composite_spec a d n s) as (b & Hrun & Hb);
    try assumption; try lia.
  rewrite not_a_witness_strong_probable_prime in Hb by lia.
  rewrite Hrun. split; split.
  - intros [= Hbf]. now apply Hb.
  - intros H. f_equal. now apply Hb.
  - intros [= Hbt] H. apply Hb in H. congruence.
  - intros H. destruct b; [reflexivity|]. exfalso. now apply H, Hb.
Qed.

Lemma check_composite_strong_probable_prime_witness :
  (3 <= 2047 /\ int64 2047 /\ 2 <= 2 < 2047 /\ 1 <= 1023 /\ int64 1023 /\
   1 <= 1 /\ int32 1 /\ strong_probable_prime 2 1023 2047 1) /\
  check_composite 2 1023 2047 1 = Ret false.
Proof.
  assert (I1 : int64 2047) by (int_bounds; lia).
  assert (I2 : int64 1023) by (int_bounds; lia).
  assert (I3 : int32 1) by (int_bounds; lia).
  assert (Hspp : strong_probable_prime 2 1023 2047 1)
    by (left; vm_compute; reflexivity).
  split; [repeat split; assumption || lia|].
  apply (check_composite_strong_probable_prime 2 1023 2047 1);
    assumption || lia.
Defined.

(** X6: when [n - 1 = d * 2^s], a base that [check_composite] lets pass
    satisfies Fermat's congruence [a^(n-1) = 1] modulo [n]; so every base
    that fails Fermat's test is reported as a witness. *)
Theorem check_composite_implies_fermat (a d n s : Z) :
  3 <= n -> int64 n -> 2 <= a < n -> int64 d -> 1 <= s -> int32 s ->
  n - 1 = d * 2 ^ s ->
  (check_composite a d n s = Ret false -> a ^ (n - 1) mod n = 1) /\
  (a ^ (n - 1) mod n <> 1 -> check_composite a d n s = Ret true).
Proof.
  intros Hn I64 Ha Id Hs Is Hdec.
  assert (Hd : 1 <= d).
  { assert (0 < 2 ^ s) by (apply Z.pow_pos_nonneg; lia). nia. }
  assert (Ia : int64 a) by (int_bounds; lia).
  destruct (check_composite_spec a d n s) as (b & Hrun & Hb);
    try assumption; try lia.
  rewrite not_a_witness_strong_probable_prime in Hb by lia.
  assert (Hpass : b = false -> a ^ (n - 1) mod n = 1).
  { intros Hf. apply (strong_probable_prime_fermat a d n s); try lia.
    now apply Hb. }
  rewrite Hrun. split.
  - intros [= Hbf]. now apply Hpass.
  - intros Hne. destruct b; [reflexivity|]. exfalso. now apply Hne, Hpass.
Qed.

Lemma check_composite_implies_fermat_witness :
  (3 <= 15 /\ int64 15 /\ 2 <= 2 < 15 /\ int64 7 /\ 1 <= 1 /\ int32 1 /\
   15 - 1 = 7 * 2 ^ 1 /\ 2 ^ (15 - 1) mod 15 <> 1) /\
  check_composite 2 7 15 1 = Ret true.
Proof.
  assert (I1 : int64 15) by (int_bounds; lia).
  assert (I2 : int64 7) by (int_bounds; lia).
  assert (I3 : int32 1) by (int_bounds; lia).
  assert (Hne : 2 ^ (15 - 1) mod 15 <> 1) by (vm_compute; discriminate).
  split; [repeat split; assumption || lia|].
  apply (check_composite_implies_fermat 2 7 15 1); assumption || lia.
Defined.

Lemma pow_minus_one_odd (n d : Z) :
  1 < n -> 0 <= d -> Z.odd d = true -> (n - 1) ^ d mod n = n - 1.
Proof.
  intros Hn Hd Hodd.
  assert (E : (n - 1) mod n = (- (1)) mod n).
  { replace (n - 1) with (- (1) + 1 * n) by ring.
    now rewrite Z.mod_add by lia. }
  rewrite <- (Z.mod_pow_l (n - 1) d n), E, Z.mod_pow_l.
  rewrite Z.pow_opp_odd by now apply Z.odd_spec.
  rewrite Z.pow_1_l by assumption.
  replace (- (1)) with (n - 1 + (- (1)) * n) by ring.
  rewrite Z.mod_add by lia. apply Z.mod_small. lia.
Qed.

(** X7: the bases [1] and [n - 1] are never witnesses: for every
    [n >= 3] and every odd [d >= 1], [check_composite] answers [false] on
    them, whatever [n] is. *)
Theorem check_composite_trivial_bases (d n s : Z) :
  3 <= n -> int64 n -> 1 <= d -> int64 d -> Z.odd d = true -> int32 s ->
  check_composite 1 d n s = Ret false /\
  check_composite (n - 1) d n s = Ret false.
Proof.
  intros Hn I64 Hd Id Hodd Is.
  assert (I1 : int64 1) by (int_bounds; lia).
  assert (Im : int64 (n - 1)) by (int_bounds; lia).
  split.
  - destruct (check_composite_spec 1 d n s) as (b & Hrun & Hb);
      try assumption; try lia.
    rewrite Hrun. f_equal. apply Hb. left.
    rewrite squarings_0, Z.pow_1_l by lia. apply Z.mod_1_l. lia.
  - destruct (check_composite_spec (n - 1) d n s) as (b & Hrun & Hb);
      try assumption; try lia.
    rewrite Hrun. f_equal. apply Hb. right. left.
    rewrite squarings_0. apply pow_minus_one_odd; assumption || lia.
Qed.

Lemma check_composite_trivial_bases_witness :
  (3 <= 561 /\ int64 561 /\ 1 <= 35 /\ int64 35 /\ Z.odd 35 = true /\
   int32 4) /\
  check_composite 1 35 561 4 = Ret false /\
  check_composite 560 35 561 4 = Ret false.
Proof.
  assert (I1 : int64 561) by (int_bounds; lia).
  assert (I2 : int64 35) by (int_bounds; lia).
  assert (I3 : int32 4) by (int_bounds; lia).
  split; [repeat split; assumption || lia|].
  apply (check_composite_trivial_bases 35 561 4 ltac:(lia) I1 ltac:(lia) I2
           eq_refl I3).
Defined.

(** ** Verdicts of the decision *)

(** X8: [isPrime] gives a verdict on every [long long]: it never divides
    by zero and none of its loops runs out of its fuel. *)
Theorem isPrime_always_returns (n : Z) :
  int64 n ->
  isPrime n <> DivByZero /\ isPrime n <> OutOfFuel /\
  exists b, isPrime n = Ret b.
Proof.
  intros I64. destruct (isPrime_total n I64) as (b & Hb).
  rewrite Hb. split; [discriminate|]. split; [discriminate|now exists b].
Qed.

Lemma isPrime_always_returns_witness :
  int64 (Int.min_signed 64) /\
  isPrime (Int.min_signed 64) <> DivByZero /\
  isPrime (Int.min_signed 64) <> OutOfFuel /\
  exists b, isPrime (Int.min_signed 64) = Ret b.
Proof.
  assert (I : int64 (Int.min_signed 64))
    by (int_bounds; vm_compute; intuition discriminate).
  exact (conj I (isPrime_always_returns (Int.min_signed 64) I)).
Defined.

(** X9: [isPrime] has no false negatives: its verdict on every prime
    [long long] is [true]. *)
Theorem isPrime_no_false_negative (n : Z) :
  int64 n -> Z.prime n -> isPrime n = Ret true.
Proof. intros I64 Hp. now apply isPrime_accepts_primes. Qed.

Lemma isPrime_no_false_negative_witness :
  (int64 3 /\ Z.prime 3) /\ isPrime 3 = Ret true.
Proof.
  assert (I : int64 3) by (int_bounds; lia).
  split; [split; [exact I|exact Z.prime_3]|].
  exact (isPrime_no_false_negative 3 I Z.prime_3).
Defined.

(** X10: a verdict [false] is certain: a [long long] [n >= 2] that
    [isPrime] rejects is a product of two factors strictly between [1]
    and [n]. *)
Theorem isPrime_false_is_composite (n : Z) :
  int64 n -> 2 <= n -> isPrime n = Ret false -> composite n.
Proof.
  intros I64 Hn Hfalse. apply not_prime_composite; [lia|].
  now apply isPrime_false_not_prime.
Qed.

Lemma isPrime_false_is_composite_witness :
  (int64 3215031751 /\ 2 <= 3215031751 /\
   isPrime 3215031751 = Ret false) /\
  composite 3215031751.
Proof.
  assert (I : int64 3215031751) by (int_bounds; lia).
  assert (H : isPrime 3215031751 = Ret false) by (vm_compute; reflexivity).
  split; [split; [exact I|split; [lia|exact H]]|].
  exact (isPrime_false_is_composite 3215031751 I ltac:(lia) H).
Defined.

(** X11: a number that [isPrime] accepts passes Fermat's test for every
    base of the table below it: for an odd [n >= 3] with verdict [true],
    [a^(n-1) = 1] modulo [n] for each [a] of [test_bases] with [a < n]. *)
Theorem isPrime_true_fermat (n : Z) :
  int64 n -> 3 <= n -> Z.odd n = true -> isPrime n = Ret true ->
  forall a, In a test_bases -> a < n -> a ^ (n - 1) mod n = 1.
Proof.
  intros I64 Hn On Htrue a Hin Ha.
  destruct (isPrime_odd_unfold n On Hn I64)
    as (d & s & _ & Heq & _ & Hd & Hs & Hrun).
  rewrite Hrun in Htrue.
  pose proof (test_bases_ge_2 a Hin) as Ha2.
  assert (Id : int64 d) by (clear - Hd I64; int_bounds; lia).
  assert (Is : int32 s) by (clear - Hs; int_bounds; lia).
  assert (Htotal : forall a', In a' test_bases -> a' < n ->
                              exists c, check_composite a' d n s = Ret c).
  { intros a' Hin' Ha'. apply test_bases_ge_2 in Hin'.
    destruct (check_composite_spec a' d n s) as (c & Hc & _);
      try assumption; try lia; [clear - Hin' I64 Ha'; int_bounds; lia|].
    now exists c. }
  destruct (bases_loop_spec d n s test_bases Htotal) as (b & Hloop & Hb).
  rewrite Hloop in Htrue. injection Htrue as ->.
  pose proof (proj1 Hb eq_refl a Hin Ha) as Hpass.
  assert (Ia : int64 a) by (clear - Ha2 I64 Ha; int_bounds; lia).
  destruct (check_composite_spec a d n s) as (c & Hc & Hiff);
    try assumption; try lia.
  rewrite Hc in Hpass. injection Hpass as ->.
  apply (strong_probable_prime_fermat a d n s); try lia.
  apply not_a_witness_strong_probable_prime; try lia.
  now apply Hiff.
Qed.

Lemma isPrime_true_fermat_witness :
  (int64 13 /\ 3 <= 13 /\ Z.odd 13 = true /\ isPrime 13 = Ret true /\
   In 11 test_bases /\ 11 < 13) /\
  11 ^ (13 - 1) mod 13 = 1.
Proof.
  assert (I : int64 13) by (int_bounds; lia).
  assert (H : isPrime 13 = Ret true) by (vm_compute; reflexivity).
  assert (Hin : In 11 test_bases) by (unfold test_bases; cbn [In]; lia).
  assert (H3 : 3 <= 13) by lia.
  assert (H11 : 11 < 13) by lia.
  split.
  - exact (conj I (conj H3 (conj eq_refl (conj H (conj Hin H11))))).
  - exact (isPrime_true_fermat 13 I H3 eq_refl H 11 Hin H11).
Defined.

(** ** The halving loop *)

(** On every non-zero [d] of absolute value at most [2^k] the loop leaves
    within [k] halvings. *)
Lemma decompose_nonzero (k : nat) :
  forall d s : Z,
    d <> 0 -> Z.abs d <= 2 ^ Z.of_nat k ->
    0 <= s -> s + Z.of_nat k < 2147483648 ->
    exists d' s' : Z,
      decompose (S k) d s = Ret (d', s') /\
      Z.odd d' = true /\ d * 2 ^ s = d' * 2 ^ s' /\
      s <= s' <= s + Z.of_nat k.
Proof.
  induction k as [|k IH]; intros d s Hd Habs Hs Hk; rewrite decompose_S,
    land_1, shiftr_1.
  - change (2 ^ Z.of_nat 0) with 1 in Habs.
    assert (E : d = 1 \/ d = -1) by lia.
    exists d, s. destruct E as [-> | ->]; cbn; repeat split; lia.
  - pose proof (Z.div_mod d 2 ltac:(lia)) as Hdm.
    pose proof (Z.mod_pos_bound d 2 ltac:(lia)) as Hbit.
    rewrite Nat2Z.inj_succ, Z.pow_succ_r in Habs by lia.
    destruct (Z.eqb_spec (d mod 2) 0) as [E|E].
    + rewrite wrap32_id by (int_bounds; lia).
      destruct (IH (d / 2) (s + 1)) as (d' & s' & Hrun & Hodd & Heq & Hs');
        [lia|lia|lia|lia|].
      exists d', s'. split; [assumption|]. split; [assumption|]. split.
      * rewrite <- Heq, Z.pow_add_r, Z.pow_1_r by lia.
        rewrite Hdm at 1. rewrite E. ring.
      * lia.
    + exists d, s. split; [reflexivity|]. split.
      * rewrite Zodd_mod. apply Z.eqb_eq. lia.
      * split; [reflexivity|lia].
Qed.

Lemma odd_times_pow2 (d k : Z) :
  0 < k -> Z.odd (d * 2 ^ k) = false.
Proof.
  intros Hk. replace k with (Z.succ (k - 1)) by lia.
  rewrite Z.pow_succ_r by lia.
  replace (d * (2 * 2 ^ (k - 1))) with (2 * (d * 2 ^ (k - 1))) by ring.
  apply Z.odd_even.
Qed.

(** The odd part and the exponent of [2] of a number are unique. *)
Lemma odd_part_unique (d1 s1 d2 s2 : Z) :
  Z.odd d1 = true -> Z.odd d2 = true -> 0 <= s1 -> 0 <= s2 ->
  d1 * 2 ^ s1 = d2 * 2 ^ s2 -> d1 = d2 /\ s1 = s2.
Proof.
  assert (Hlt : forall d1 s1 d2 s2,
             Z.odd d1 = true -> 0 <= s1 < s2 ->
             d1 * 2 ^ s1 = d2 * 2 ^ s2 -> False).
  { clear. intros d1 s1 d2 s2 O1 Hs E.
    replace s2 with (s2 - s1 + s1) in E by lia.
    rewrite Z.pow_add_r, Z.mul_assoc in E by lia.
    apply Z.mul_cancel_r in E; [|apply Z.pow_nonzero; lia].
    rewrite E, odd_times_pow2 in O1 by lia. discriminate. }
  intros O1 O2 H1 H2 E.
  destruct (Z.lt_trichotomy s1 s2) as [Hs|[->|Hs]].
  - exfalso. apply (Hlt d1 s1 d2 s2); auto with zarith.
  - split; [|reflexivity].
    apply Z.mul_cancel_r in E; [assumption|apply Z.pow_nonzero; lia].
  - exfalso. apply (Hlt d2 s2 d1 s1); auto with zarith.
Qed.

(** X12: on every non-zero [long long] [d], of either sign, the halving
    loop returns within its 64 tests with the odd part [d'] of [d] and the
    exponent [s'] of [2] in [d]: [d = d' * 2^s'] with [d'] odd and
    [0 <= s' <= 63], and no other pair has this property. *)
Theorem decompose_odd_part (d : Z) :
  int64 d -> d <> 0 ->
  exists d' s' : Z,
    decompose decompose_fuel d 0 = Ret (d', s') /\
    Z.odd d' = true /\ d = d' * 2 ^ s' /\ 0 <= s' <= 63 /\
    forall d2 s2, Z.odd d2 = true -> 0 <= s2 -> d = d2 * 2 ^ s2 ->
                  d2 = d' /\ s2 = s'.
Proof.
  intros Id Hd.
  destruct (decompose_nonzero 63 d 0) as (d' & s' & Hrun & Hodd & Heq & Hs);
    try lia.
  { int_bounds. change (2 ^ Z.of_nat 63) with 9223372036854775808. lia. }
  rewrite Z.pow_0_r, Z.mul_1_r in Heq.
  exists d', s'. split; [assumption|]. split; [assumption|].
  split; [assumption|]. split; [lia|].
  intros d2 s2 O2 Hs2 E.
  apply odd_part_unique; try assumption; try congruence; lia.
Qed.

Lemma decompose_odd_part_witness :
  (int64 (Int.min_signed 64) /\ Int.min_signed 64 <> 0) /\
  decompose decompose_fuel (Int.min_signed 64) 0 = Ret (-1, 63).
Proof.
  assert (I : int64 (Int.min_signed 64))
    by (int_bounds; vm_compute; intuition discriminate).
  assert (Hnz : Int.min_signed 64 <> 0) by (vm_compute; discriminate).
  split; [split; assumption|].
  destruct (decompose_odd_part (Int.min_signed 64) I Hnz)
    as (d' & s' & Hrun & _).
  rewrite Hrun. vm_compute in Hrun. exact (eq_sym Hrun).
Defined.


(** ** The program as a whole *)

Lemma append_cancel_l (p s1 s2 : string) :
  (p ++ s1)%string = (p ++ s2)%string -> s1 = s2.
Proof.
  induction p as [|c p IH]; cbn; [trivial|].
  intros [= E]. now apply IH.
Qed.

(** X14: for every [long long] left in [n] by the extraction, [main]
    terminates with exit status [0] after writing the prompt, the decimal
    digits of [n] and one verdict line.  The line is [" is PRIME"] for
    every prime [n], and a line [" is COMPOSITE"] is written only for an
    [n] that is not prime. *)
Theorem main_verdict (n : Z) :
  int64 n ->
  let line (v : string) :=
    ("Enter a number: " ++ decimal n ++ v ++ newline)%string in
  (main n = Ret (line " is PRIME"%string, 0) \/
   main n = Ret (line " is COMPOSITE"%string, 0)) /\
  (Z.prime n -> main n = Ret (line " is PRIME"%string, 0)) /\
  (main n = Ret (line " is COMPOSITE"%string, 0) -> ~ Z.prime n).
Proof.
  intros I64 line.
  assert (Hrun : forall b, isPrime n = Ret b ->
                   main n = Ret (line (if b then " is PRIME"%string
                                       else " is COMPOSITE"%string), 0)).
  { intros b Hb. unfold main. rewrite Hb. now destruct b. }
  assert (Hdiff : line " is PRIME"%string <> line " is COMPOSITE"%string).
  { unfold line. intros E.
    apply append_cancel_l, append_cancel_l in E. discriminate. }
  destruct (isPrime_total n I64) as (b & Hb).
  pose proof (Hrun b Hb) as Hmain.
  split; [destruct b; [now left|now right]|]. split.
  - intros Hp. rewrite (isPrime_accepts_primes n Hp I64) in Hb.
    injection Hb as <-. exact Hmain.
  - intros Hc Hp. rewrite (isPrime_accepts_primes n Hp I64) in Hb.
    injection Hb as <-. rewrite Hmain in Hc.
    apply Hdiff. congruence.
Qed.

Lemma main_verdict_witness :
  (int64 (-42) /\ int64 3 /\ Z.prime 3) /\
  main (-42) = Ret ("Enter a number: -42 is COMPOSITE" ++ newline, 0)%string /\
  main 3 = Ret ("Enter a number: 3 is PRIME" ++ newline, 0)%string.
Proof.
  assert (I1 : int64 (-42)) by (int_bounds; lia).
  assert (I3 : int64 3) by (int_bounds; lia).
  split; [exact (conj I1 (conj I3 Z.prime_3))|].
  destruct (main_verdict (-42) I1) as ([H|H] & _ & _);
    [vm_compute in H; discriminate|].
  destruct (main_verdict 3 I3) as (_ & Hp & _).
  split; [exact H|exact (Hp Z.prime_3)].
Defined.

(** ** Exact verdicts on small numbers *)

Lemma no_small_divisor_spec (n p : Z) :
  no_small_divisor n = true -> 2 <= p <= Z.sqrt n -> ~ (p | n).
Proof.
  unfold no_small_divisor. rewrite forallb_forall. intros Hall Hp Hdiv.
  assert (Hin : In p (map Z.of_nat (seq 2 (Z.to_nat (Z.sqrt n) - 1)))).
  { apply in_map_iff. exists (Z.to_nat p).
    split; [apply Z2Nat.id; lia|].
    apply in_seq. clear Hall Hdiv.
    assert (Hs : (Z.to_nat p <= Z.to_nat (Z.sqrt n))%nat)
      by (apply Z2Nat.inj_le; lia).
    assert (Hp2 : (2 <= Z.to_nat p)%nat)
      by (change 2%nat with (Z.to_nat 2); apply Z2Nat.inj_le; lia).
    lia. }
  apply Hall in Hin. apply Z.mod_divide in Hdiv; [|lia].
  rewrite Hdiv in Hin. discriminate.
Qed.

Lemma prime_by_trial_sound (n : Z) : prime_by_trial n = true -> Z.prime n.
Proof.
  unfold prime_by_trial. intros [Hn Hno]%andb_true_iff.
  apply Z.leb_le in Hn. split; [lia|]. intros q Hq [c Hc].
  assert (Hc1 : 1 < c < n) by nia.
  assert (Hmin : 2 <= Z.min q c <= Z.sqrt n).
  { split; [lia|]. apply Z.sqrt_le_square; [lia|lia|]. rewrite Hc.
    destruct (Z.min_spec q c) as [[Hle ->]|[Hle ->]].
    - apply Z.mul_le_mono_nonneg_r; lia.
    - apply Z.mul_le_mono_nonneg_l; lia. }
  apply (no_small_divisor_spec n (Z.min q c) Hno Hmin).
  destruct (Z.min_spec q c) as [[_ ->]|[_ ->]].
  - exists c. lia.
  - exists q. lia.
Qed.

Lemma accepted_are_prime_below_spec (bound : nat) (n : Z) :
  accepted_are_prime_below bound = true ->
  0 <= n < Z.of_nat bound -> isPrime n = Ret true -> Z.prime n.
Proof.
  unfold accepted_are_prime_below. rewrite forallb_forall.
  intros Hall Hn Htrue.
  assert (Hin : In (Z.to_nat n) (seq 0 bound)) by (apply in_seq; lia).
  apply Hall in Hin. rewrite Z2Nat.id, Htrue in Hin by lia.
  now apply prime_by_trial_sound.
Qed.

(** The check of all numbers below [1024], by computation. *)
Lemma accepted_are_prime_below_1024 : accepted_are_prime_below 1024 = true.
Proof. vm_cast_no_check (eq_refl true). Qed.

(** X15: below [1024] the verdict of [isPrime] is exact: it is [true] on
    the primes and [false] on every other integer, negative ones
    included. *)
Theorem isPrime_exact_below_1024 (n : Z) :
  n < 1024 ->
  (isPrime n = Ret true <-> Z.prime n) /\
  (isPrime n = Ret false <-> ~ Z.prime n).
Proof.
  intros Hn.
  assert (Hsound : isPrime n = Ret true -> Z.prime n).
  { intros Htrue. destruct (Z.lt_ge_cases n 2) as [Hlt|Hge].
    - rewrite isPrime_below_2 in Htrue by assumption. discriminate.
    - apply (accepted_are_prime_below_spec 1024);
        [exact accepted_are_prime_below_1024|lia|assumption]. }
  assert (Hcases : isPrime n = Ret true \/ isPrime n = Ret false).
  { destruct (Z.lt_ge_cases n 2) as [Hlt|Hge].
    - right. now apply isPrime_below_2.
    - destruct (isPrime_total n) as ([|] & Hb); [int_bounds; lia| |];
        [now left|now right]. }
  assert (Hcomplete : Z.prime n -> isPrime n = Ret true).
  { intros Hp. pose proof (Z.prime_ge_2 n Hp).
    apply isPrime_accepts_primes; [assumption|int_bounds; lia]. }
  split; split.
  - exact Hsound.
  - exact Hcomplete.
  - intros Hfalse Hp. rewrite (Hcomplete Hp) in Hfalse. discriminate.
  - intros Hnp. destruct Hcases as [Htrue|Hfalse]; [|assumption].
    exfalso. now apply Hnp, Hsound.
Qed.

Lemma isPrime_exact_below_1024_witness :
  (1021 < 1024 /\ isPrime 1021 = Ret true) /\ Z.prime 1021.
Proof.
  assert (H : isPrime 1021 = Ret true) by (vm_compute; reflexivity).
  assert (Hlt : 1021 < 1024) by lia.
  split; [exact (conj Hlt H)|].
  exact (proj1 (proj1 (isPrime_exact_below_1024 1021 Hlt)) H).
Defined.

(** ** The order of the bases *)

(** X16: the verdict on an odd [n >= 3] depends on the set of bases only:
    the loop of [isPrime] run on any list with the elements of
    [test_bases], in any order and with any repetitions, gives the verdict
    of [isPrime]. *)
Theorem isPrime_bases_order (n : Z) (bases : list Z) :
  int64 n -> 3 <= n -> Z.odd n = true ->
  (forall a, In a bases <-> In a test_bases) ->
  exists d s : Z,
    decompose decompose_fuel (n - 1) 0 = Ret (d, s) /\
    bases_loop bases d n s = isPrime n.
Proof.
  intros I64 Hn On Hsame.
  destruct (isPrime_odd_unfold n On Hn I64)
    as (d & s & Hdec & _ & _ & Hd & Hs & Hrun).
  rewrite wrap64_pred_n in Hdec by assumption.
  exists d, s. split; [assumption|]. rewrite Hrun.
  assert (Id : int64 d) by (clear - Hd I64; int_bounds; lia).
  assert (Is : int32 s) by (clear - Hs; int_bounds; lia).
  assert (Htotal : forall a, In a test_bases -> a < n ->
                             exists c, check_composite a d n s = Ret c).
  { intros a Hin Ha. apply test_bases_ge_2 in Hin.
    destruct (check_composite_spec a d n s) as (c & Hc & _);
      try assumption; try lia; [clear - Hin I64 Ha; int_bounds; lia|].
    now exists c. }
  destruct (bases_loop_spec d n s test_bases Htotal) as (b & Hb & Hiff).
  destruct (bases_loop_spec d n s bases) as (b' & Hb' & Hiff').
  { intros a Hin. apply Htotal. now apply Hsame. }
  rewrite Hb, Hb'. f_equal.
  apply eq_true_iff_eq. rewrite Hiff, Hiff'. split.
  - intros H a Hin. apply H. now apply Hsame.
  - intros H a Hin. apply H. now apply Hsame.
Qed.

Lemma isPrime_bases_order_witness :
  (int64 3215031751 /\ 3 <= 3215031751 /\ Z.odd 3215031751 = true) /\
  bases_loop [17; 13; 11; 7; 5; 3; 2; 2] 1607515875 3215031751 1 =
    isPrime 3215031751.
Proof.
  assert (I : int64 3215031751) by (int_bounds; lia).
  assert (H3 : 3 <= 3215031751) by lia.
  split; [exact (conj I (conj H3 eq_refl))|].
  destruct (isPrime_bases_order 3215031751 [17; 13; 11; 7; 5; 3; 2; 2]
              I H3 eq_refl) as (d & s & Hdec & Hrun).
  { intros a. unfold test_bases. cbn [In]. tauto. }
  assert (E : d = 1607515875 /\ s = 1).
  { vm_compute in Hdec. injection Hdec as <- <-. split; reflexivity. }
  destruct E as [-> ->]. exact Hrun.
Defined.
